(** * plantgo-backend: the flower classifier script [ml/predict.py]

    A shallow embedding of the command-line inference script and the
    properties of its contract.  The script is glue around Pillow, NumPy,
    the base64 codec and a Keras model; the third-party code is taken as a
    record ([Libs]) of the operations called and of what importing it does
    to the environment, the code of the script itself (environment
    assignment, argument check, pipeline order, arg-max, table lookup,
    formatting, exit status) is embedded as written.

    Floating-point values are IEEE 754 binary64 numbers in the sense of
    [SpecFloat]: the pixel division [x / 255.0] is the correctly rounded
    [SFdiv], comparisons are [SFleb]/[SFltb] with their NaN behaviour, and
    the [.4f] conversion rounds the exact binary value half-to-even. *)

From Stdlib Require Import ZArith List String Ascii Lia Bool.
From Stdlib Require Import Floats.SpecFloat.
From Stdlib Require Import Numbers.DecimalString.
From stdpp Require Import base gmap strings list.

Local Open Scope Z_scope.

(* ===================================================================== *)
(** * Binary64 numbers *)
(* ===================================================================== *)

Module F64.

Definition prec : Z := 53.
Definition emax : Z := 1024.

Definition float := spec_float.

(** A well-formed binary64 datum: canonical mantissa, exponent in range. *)
Definition valid (x : float) : bool := valid_binary prec emax x.

(** Exact conversion of a (small) integer, as in the uint8 -> float64
    cast NumPy performs before a true division. *)
Definition of_Z (n : Z) : float := binary_normalize prec emax n 0 false.

Definition zero : float := S754_zero false.
Definition one : float := of_Z 1.

Definition div (x y : float) : float := SFdiv prec emax x y.

Definition leb (x y : float) : bool := SFleb x y.
Definition ltb (x y : float) : bool := SFltb x y.

Definition isnan (x : float) : bool :=
  match x with S754_nan => true | _ => false end.

Definition is_finite (x : float) : bool :=
  match x with S754_zero _ | S754_finite _ _ _ => true | _ => false end.

(** [0 <= x <= 1], with IEEE comparisons (false on NaN). *)
Definition in_unit (x : float) : bool := leb zero x && leb x one.

(** A binary32 value widened to binary64 (the conversion [float()] applies
    to a NumPy float32 scalar); widening is exact. *)
Definition of_f32 (x : spec_float) : float :=
  match x with
  | S754_finite s m e => binary_normalize prec emax (cond_Zopp s (Zpos m)) e s
  | _ => x
  end.

(** The binary64, resp. binary32, number nearest to [n/d]: how the decimal
    literals of the examples ([0.9] is [lit 9 10]) are read. *)
Definition lit (n d : Z) : float := div (of_Z n) (of_Z d).
Definition lit32 (n d : Z) : float :=
  of_f32 (SFdiv 24 128 (binary_normalize 24 128 n 0 false)
                       (binary_normalize 24 128 d 0 false)).

Definition is_zero (x : float) : bool :=
  match x with S754_zero _ => true | _ => false end.

(** The same number: the same datum, or two zeros, whose signs may differ
    ([-0.0 == 0.0] in Python). *)
Definition same_number (x y : float) : Prop :=
  x = y ∨ (is_zero x = true ∧ is_zero y = true).

End F64.

(* ===================================================================== *)
(** * Python's fixed-point formatting, [format(x, '.4f')] *)
(* ===================================================================== *)

Module Fmt.

(** [n / d] rounded to the nearest integer, ties to even ([d > 0]). *)
Definition round_half_even (n d : Z) : Z :=
  let q := n / d in
  let r := n mod d in
  match 2 * r ?= d with
  | Lt => q
  | Gt => q + 1
  | Eq => if Z.even q then q else q + 1
  end.

(** [|x| * 10^4] rounded to an integer, for the finite number
    [m * 2^e]. *)
Definition scaled4 (m : positive) (e : Z) : Z :=
  match e with
  | Zneg p => round_half_even (Zpos m * 10000) (2 ^ Zpos p)
  | _ => Zpos m * 2 ^ e * 10000
  end.

(** Sign and magnitude (in units of 10^-4) of the decimal that [.4f]
    prints; [None] for NaN and the infinities. *)
Definition round4 (x : F64.float) : option (bool * Z) :=
  match x with
  | S754_zero s => Some (s, 0)
  | S754_finite s m e => Some (s, scaled4 m e)
  | S754_infinity _ | S754_nan => None
  end.

Definition digit_char (d : Z) : ascii :=
  ascii_of_N (48 + Z.to_N (d mod 10)).

Definition is_digit (c : ascii) : bool :=
  ((48 <=? N_of_ascii c) && (N_of_ascii c <=? 57))%N.

Definition all_digits (s : string) : bool :=
  forallb is_digit (list_ascii_of_string s).

Definition int_part (n : Z) : string :=
  NilZero.string_of_uint (N.to_uint (Z.to_N n)).

Definition frac4 (r : Z) : string :=
  String (digit_char (r / 1000))
    (String (digit_char (r / 100))
       (String (digit_char (r / 10))
          (String (digit_char r) EmptyString))).

(** The decimal rendering of [n / 10^4] with four fractional digits. *)
Definition fixed4 (n : Z) : string :=
  int_part (n / 10000) +:+ "." +:+ frac4 (n mod 10000).

Definition sign_str (s : bool) : string := if s then "-" else "".

Definition format_4f (x : F64.float) : string :=
  match round4 x with
  | Some (s, n) => sign_str s +:+ fixed4 n
  | None =>
      match x with
      | S754_infinity s => sign_str s +:+ "inf"
      | _ => "nan"
      end
  end.

(** "A number with exactly four decimal places": an optional sign, a
    non-empty run of digits, a point, four digits. *)
Definition four_decimals (s : string) : Prop :=
  ∃ sg ip fp,
    s = sign_str sg +:+ ip +:+ "." +:+ fp ∧
    ip ≠ EmptyString ∧ all_digits ip = true ∧
    String.length fp = 4%nat ∧ all_digits fp = true.

End Fmt.

(* ===================================================================== *)
(** * Python values, exceptions and the process state *)
(* ===================================================================== *)

(** The class name of a raised exception ([FileNotFoundError],
    [binascii.Error], [IndexError], ...). *)
Definition pyerr := string.

(** What can unwind [main]: [sys.exit(code)], or an ordinary exception.
    The library operations of the model raise ordinary exceptions only. *)
Inductive exn :=
  | SystemExit (code : Z)
  | Exception (e : pyerr).

(** The mutable state the script touches: [os.environ] and the lines
    written to standard output. *)
Record pstate := {
  environ : gmap string string;
  stdout : list string
}.

Definition Py (A : Type) : Type := pstate → pstate * (exn + A).

#[export] Instance Py_ret : MRet Py := λ A a st, (st, inr a).
#[export] Instance Py_bind : MBind Py := λ A B k c st,
  match c st with
  | (st', inr a) => k a st'
  | (st', inl e) => (st', inl e)
  end.

(** Results of pure operations that may raise. *)
Definition res (A : Type) : Type := pyerr + A.

#[export] Instance res_ret : MRet res := λ A a, inr a.
#[export] Instance res_bind : MBind res := λ A B k c,
  match c with
  | inr a => k a
  | inl e => inl e
  end.

Definition lift {A} (r : res A) : Py A := λ st,
  match r with
  | inr a => (st, inr a)
  | inl e => (st, inl (Exception e))
  end.

Definition print (line : string) : Py unit := λ st,
  ({| environ := environ st; stdout := stdout st ++ [line] |}, inr tt).

Definition sys_exit (code : Z) : Py unit := λ st, (st, inl (SystemExit code)).

Definition environ_set (k v : string) : Py unit := λ st,
  ({| environ := <[k := v]> (environ st); stdout := stdout st |}, inr tt).

(** [l[i]] for a Python list and a non-negative index. *)
Definition getitem {A} (l : list A) (i : nat) : res A :=
  match l !! i with
  | Some a => inr a
  | None => inl "IndexError"
  end.

(** ** Text and [str.strip()] *)

(** A [str] is a sequence of Unicode code points. *)
Definition text := list N.

Definition text_of_string (s : string) : text :=
  map N_of_ascii (list_ascii_of_string s).

(** The code points [str.isspace] accepts, which [strip()] removes. *)
Definition py_isspace (c : N) : bool :=
  (((9 <=? c) && (c <=? 13)) || ((28 <=? c) && (c <=? 32))
   || (c =? 133) || (c =? 160) || (c =? 5760)
   || ((8192 <=? c) && (c <=? 8202))
   || (c =? 8232) || (c =? 8233) || (c =? 8239) || (c =? 8287)
   || (c =? 12288))%N.

Fixpoint lstrip (s : text) : text :=
  match s with
  | c :: s' => if py_isspace c then lstrip s' else s
  | [] => []
  end.

Definition rstrip (s : text) : text := rev (lstrip (rev s)).

Definition strip (s : text) : text := rstrip (lstrip s).

Definition bytes := list Byte.byte.

(* ===================================================================== *)
(** * The NumPy operations the script calls *)
(* ===================================================================== *)

Module Np.

(** A two-dimensional array: its rows and, since an array keeps its
    second dimension when it has no rows, the number of columns. *)
Record array2 := {
  ncols : nat;
  rows : list (list F64.float)
}.

(** [np.array(rows)]: the array with the given rows; no rows give shape
    (0, 0). *)
Definition array (l : list (list F64.float)) : array2 :=
  {| ncols := match l with row :: _ => length row | [] => 0 end;
     rows := l |}.

(** Image tensors: (height, width, channel) and (batch, height, width,
    channel). *)
Definition tensor3 (A : Type) := list (list (list A)).
Definition tensor4 := list (tensor3 F64.float).

(** The scan of [argmax] over one row after its first element: [mp] is
    the running maximum (never NaN here), [max_ind] its index, [i] the
    index of the head of [ip].  An element replaces the maximum when
    [!(x <= mp)]; a NaN ends the scan. *)
Fixpoint argmax_loop (mp : F64.float) (max_ind i : nat)
    (ip : list F64.float) : nat :=
  match ip with
  | [] => max_ind
  | x :: ip' =>
      if negb (F64.leb x mp)
      then if F64.isnan x then i else argmax_loop x i (S i) ip'
      else argmax_loop mp max_ind (S i) ip'
  end.

Definition argmax (row : list F64.float) : res nat :=
  match row with
  | [] => inl "ValueError"
  | x :: ip => inr (if F64.isnan x then 0%nat else argmax_loop x 0 1 ip)
  end.

Fixpoint argmax_rows (a : list (list F64.float)) : res (list nat) :=
  match a with
  | [] => inr []
  | row :: a' =>
      i ← argmax row;
      js ← argmax_rows a';
      mret (i :: js)
  end.

(** [np.argmax(a, axis=1)]: the arg-max of each row; an array without
    columns has nothing to take it of. *)
Definition argmax_axis1 (a : array2) : res (list nat) :=
  if (ncols a =? 0)%nat then inl "ValueError" else argmax_rows (rows a).

(** [np.maximum] on two scalars, as the reduction computes it: the first
    operand when it is the larger or a NaN, the second otherwise.  Of two
    equal numbers it is the second, which shows on zeros of different
    sign: the maximum of [-0.0] and [0.0], in this order, is [0.0]. *)
Definition maximum (a b : F64.float) : F64.float :=
  if F64.ltb b a || F64.isnan a then a else b.

(** [np.max(a)]: [maximum] reduced over the flattened array, in index
    order. *)
Definition amax (a : array2) : res F64.float :=
  match concat (rows a) with
  | [] => inl "ValueError"
  | x :: xs => inr (fold_left maximum xs x)
  end.

(** [np.array(img)] for an RGB image: shape (height, width, 3), uint8. *)
Definition array_of_rgb (img : list (list (Byte.byte * Byte.byte * Byte.byte)))
    : tensor3 Byte.byte :=
  map (map (λ '(r, g, b), [r; g; b])) img.

(** [a / 255.0] on a uint8 array: each element is converted to float64
    and divided. *)
Definition f255 : F64.float := F64.of_Z 255.

Definition div255 (b : Byte.byte) : F64.float :=
  F64.div (F64.of_Z (Z.of_N (Byte.to_N b))) f255.

Definition true_divide_255 (a : tensor3 Byte.byte) : tensor3 F64.float :=
  map (map (map div255)) a.

(** [np.expand_dims(a, axis=0)]. *)
Definition expand_dims_0 (a : tensor3 F64.float) : tensor4 := [a].

(** Shape and range of a 4-dimensional tensor. *)
Definition has_shape4 (n h w c : nat) (t : tensor4) : Prop :=
  length t = n ∧
  Forall (λ img, length img = h ∧
    Forall (λ row, length row = w ∧
      Forall (λ px : list F64.float, length px = c) row) img) t.

Definition all_in_unit (t : tensor4) : Prop :=
  Forall (Forall (Forall (Forall (λ x, F64.in_unit x = true)))) t.

End Np.

(* ===================================================================== *)
(** * The libraries behind the script *)
(* ===================================================================== *)

Definition pixel : Type := Byte.byte * Byte.byte * Byte.byte.

(** A Pillow image in mode RGB, by rows of 8-bit pixels. *)
Definition rgb_image := list (list pixel).

(** A loaded Keras model, seen through [model.predict(x, verbose=0)]. *)
Definition keras_model := Np.tensor4 → res Np.array2.

(** The third-party code.  [imports] is what executing the import
    statements of lines 4-10 does to [os.environ] (TensorFlow, for one,
    sets variables of its own when it is imported); the imports are taken
    to succeed.  The other fields are the operations called, each
    returning its value or the exception it raises: [open_read] is
    [open(path, "r")] followed by [f.read()]; [Image] is a Pillow image as
    [Image.open] returns it, before pixel data are decoded.  The
    operations are taken through their results: their own reads of the
    environment are part of how a given [Libs] behaves, and their writes
    to it, if any, are not followed. *)
Record Libs := {
  Image : Type;
  imports : gmap string string → gmap string string;
  open_read : string → res text;
  b64decode : text → res bytes;
  load_model : string → res keras_model;
  Image_open : bytes → res Image;
  convert_RGB : Image → res rgb_image;
  resize : nat * nat → rgb_image → res rgb_image
}.

(** Pillow's [resize((w, h))], for a width and a height of at least one,
    returns an image of the requested size. *)
Definition resize_contract (L : Libs) : Prop :=
  ∀ w h img, (0 < w)%nat → (0 < h)%nat →
    ∃ resized,
      resize L (w, h) img = inr resized ∧
      length resized = h ∧
      Forall (λ row, length row = w) resized.

(** Pillow's [resize] refuses an empty target: "height and width must
    be > 0". *)
Definition resize_rejects_empty (L : Libs) : Prop :=
  ∀ w h img, w = 0%nat ∨ h = 0%nat →
    resize L (w, h) img = inl "ValueError"%string.

(** Modelled from the spec: the classifier file [ml/flower3.keras] is an
    artifact outside the sources; the spec's data model describes it as
    "mapping an image tensor to a probability distribution over 2 fixed
    classes", run on a single-image batch.  So a prediction is one row of
    two binary64-representable numbers in [0,1].  (That the two add up to
    one is not required: in binary32 they need not, and nothing below uses
    it.) *)
Definition probability_row (row : list F64.float) : Prop :=
  length row = 2%nat ∧
  Forall (λ x, F64.valid x = true ∧ F64.in_unit x = true) row.

(** Modelled from the spec: every model the loader returns is such a
    classifier, whatever tensor it is run on. *)
Definition probability_model (L : Libs) : Prop :=
  ∀ path model t preds,
    load_model L path = inr model → model t = inr preds →
    ∃ row, preds = Np.array [row] ∧ probability_row row.

(* ===================================================================== *)
(** * ml/predict.py *)
(* ===================================================================== *)

Definition model_path : string := "ml/flower3.keras".
Definition class_names : list string := ["Marigold"; "Scarlet Sage"].

Definition default_target_size : nat * nat := (150%nat, 150%nat).

Definition load_and_preprocess_image_from_bytes (L : Libs)
    (img_bytes : bytes) (target_size : nat * nat) : res Np.tensor4 :=
  im ← Image_open L img_bytes;
  img ← convert_RGB L im;
  img ← resize L target_size img;
  let img_array := Np.true_divide_255 (Np.array_of_rgb img) in
  mret (Np.expand_dims_0 img_array).

Definition main (L : Libs) (argv : list string) : Py unit :=
  (if (length argv <? 2)%nat
   then print "Error|0.0" ;; sys_exit 1
   else mret tt) ;;
  b64_file_path ← lift (getitem argv 1);
  content ← lift (open_read L b64_file_path);
  let b64_string := strip content in
  img_bytes ← lift (b64decode L b64_string);
  model ← lift (load_model L model_path);
  img_array ← lift (load_and_preprocess_image_from_bytes L img_bytes
                      default_target_size);
  preds ← lift (model img_array);
  indices ← lift (Np.argmax_axis1 preds);
  predicted_index ← lift (getitem indices 0);
  predicted_label ← lift (getitem class_names predicted_index);
  confidence ← lift (Np.amax preds);
  print (predicted_label +:+ "|" +:+ Fmt.format_4f confidence).

(** The import statements of lines 4-10, through their effect on
    [os.environ]. *)
Definition import_modules (L : Libs) : Py unit := λ st,
  ({| environ := imports L (environ st); stdout := stdout st |}, inr tt).

(** The module body: the environment assignment of line 2, the imports,
    the call of [main]. *)
Definition script (L : Libs) (argv : list string) : Py unit :=
  environ_set "TF_CPP_MIN_LOG_LEVEL" "3" ;;
  import_modules L ;;
  main L argv.

(** What one invocation leaves: the lines on standard output, the exit
    status, the uncaught exception if any, and [os.environ] as the module
    body (line 2 and the imports) made it. *)
Record outcome := {
  out_stdout : list string;
  exit_status : Z;
  traceback : option pyerr;
  out_environ : gmap string string
}.

Definition run (L : Libs) (argv : list string)
    (env : gmap string string) : outcome :=
  let '(st, r) := script L argv {| environ := env; stdout := [] |} in
  {| out_stdout := stdout st;
     exit_status :=
       match r with
       | inr _ => 0
       | inl (SystemExit code) => code
       | inl (Exception _) => 1
       end;
     traceback := match r with inl (Exception e) => Some e | _ => None end;
     out_environ := environ st |}.

(** The run reaches inference and the model answers [preds]. *)
Definition model_returns (L : Libs) (argv : list string)
    (preds : Np.array2) : Prop :=
  ∃ path content img_bytes model,
    argv !! 1%nat = Some path ∧
    open_read L path = inr content ∧
    b64decode L (strip content) = inr img_bytes ∧
    load_model L model_path = inr model ∧
    (load_and_preprocess_image_from_bytes L img_bytes default_target_size
       ≫= model) = inr preds.

(** Lines 39-41 as a function of the prediction array: the label and the
    confidence that line 43 prints. *)
Definition postprocess (preds : Np.array2) : res (string * F64.float) :=
  indices ← Np.argmax_axis1 preds;
  predicted_index ← getitem indices 0;
  predicted_label ← getitem class_names predicted_index;
  confidence ← Np.amax preds;
  mret (predicted_label, confidence).

Definition output_line (label : string) (confidence : F64.float) : string :=
  label +:+ "|" +:+ Fmt.format_4f confidence.

(** The three shapes an invocation's outcome takes. *)
Definition env_after (L : Libs) (env : gmap string string)
    : gmap string string :=
  imports L (<["TF_CPP_MIN_LOG_LEVEL" := "3"]> env).

Definition usage_error (L : Libs) (env : gmap string string) : outcome :=
  {| out_stdout := ["Error|0.0"]; exit_status := 1; traceback := None;
     out_environ := env_after L env |}.

Definition crashed (L : Libs) (e : pyerr) (env : gmap string string)
    : outcome :=
  {| out_stdout := []; exit_status := 1; traceback := Some e;
     out_environ := env_after L env |}.

Definition printed (L : Libs) (line : string) (env : gmap string string)
    : outcome :=
  {| out_stdout := [line]; exit_status := 0; traceback := None;
     out_environ := env_after L env |}.

(** The failures of the pipeline after the argument check, in the order
    the script meets them: unreadable file, base64 decoding, model
    loading, image decoding, inference, post-processing of the answer. *)
Inductive pipeline_fails (L : Libs) (path : string) : pyerr → Prop :=
  | fail_open e :
      open_read L path = inl e →
      pipeline_fails L path e
  | fail_b64decode content e :
      open_read L path = inr content →
      b64decode L (strip content) = inl e →
      pipeline_fails L path e
  | fail_load_model content img_bytes e :
      open_read L path = inr content →
      b64decode L (strip content) = inr img_bytes →
      load_model L model_path = inl e →
      pipeline_fails L path e
  | fail_image content img_bytes model e :
      open_read L path = inr content →
      b64decode L (strip content) = inr img_bytes →
      load_model L model_path = inr model →
      load_and_preprocess_image_from_bytes L img_bytes default_target_size
        = inl e →
      pipeline_fails L path e
  | fail_predict content img_bytes model img_array e :
      open_read L path = inr content →
      b64decode L (strip content) = inr img_bytes →
      load_model L model_path = inr model →
      load_and_preprocess_image_from_bytes L img_bytes default_target_size
        = inr img_array →
      model img_array = inl e →
      pipeline_fails L path e
  | fail_postprocess content img_bytes model img_array preds e :
      open_read L path = inr content →
      b64decode L (strip content) = inr img_bytes →
      load_model L model_path = inr model →
      load_and_preprocess_image_from_bytes L img_bytes default_target_size
        = inr img_array →
      model img_array = inr preds →
      postprocess preds = inl e →
      pipeline_fails L path e.

(** ** A stand-in for the libraries

    A small concrete [Libs]: imports that set one variable of their own,
    a file system given as a map, a codec that knows one payload, a
    one-row image decoder, nearest-neighbour resampling and a model with a
    fixed answer. *)
Module Stub.

Definition black : pixel := (Byte.x00, Byte.x00, Byte.x00).

Definition nearest (size : nat * nat) (img : rgb_image) : res rgb_image :=
  let '(w, h) := size in
  let H := length img in
  let W := length (hd [] img) in
  if ((w =? 0) || (h =? 0))%nat then inl "ValueError"
  else inr
    (map (λ i,
       map (λ j,
              nth (Nat.div (j * W) w) (nth (Nat.div (i * H) h) img []) black)
           (seq 0 w))
       (seq 0 h)).

(** What importing the framework does to the environment. *)
Definition framework_imports (env : gmap string string)
    : gmap string string :=
  <["TF2_BEHAVIOR" := "1"]> env.

Definition payload : text := text_of_string "AAAA".

Definition decode (t : text) : res bytes :=
  if decide (t = payload)
  then inr [Byte.x00; Byte.x00; Byte.x00]
  else inl "binascii.Error".

Definition libs (files : gmap string text) (weights : bool)
    (answer : res Np.array2) : Libs :=
  {| Image := bytes;
     imports := framework_imports;
     open_read p :=
       match files !! p with
       | Some t => inr t
       | None => inl "FileNotFoundError"
       end;
     b64decode := decode;
     load_model p :=
       if weights then inr (λ _, answer) else inl "ValueError";
     Image_open b :=
       match b with
       | [] => inl "UnidentifiedImageError"
       | _ => inr b
       end;
     convert_RGB b := inr [map (λ c, (c, c, c)) b];
     resize := nearest |}.

Definition files : gmap string text :=
  {[ "img.b64" := text_of_string "  AAAA
" ]}.

Definition argv : list string := ["ml/predict.py"; "img.b64"].

(** A mock classifier answering [0.9, 0.1], resp. [0.2, 0.8], in
    binary32. *)
Definition marigold : Np.array2 :=
  Np.array [[F64.lit32 9 10; F64.lit32 1 10]].
Definition sage : Np.array2 :=
  Np.array [[F64.lit32 2 10; F64.lit32 8 10]].

Definition good : Libs := libs files true (inr marigold).

(** A classifier whose first output is not a number. *)
Definition nan_libs : Libs :=
  libs files true (inr (Np.array [[S754_nan; F64.lit32 8 10]])).

End Stub.

(* ===================================================================== *)
(** * The order of binary64 numbers, as a key *)
(* ===================================================================== *)

(** [SFcompare] orders the numbers other than NaN as: minus infinity, the
    negative numbers (larger exponent, then larger mantissa, first), the
    two zeros, the positive numbers, plus infinity.  [rank] is that
    position as a triple compared lexicographically. *)
Definition rank (x : F64.float) : Z * Z * Z :=
  match x with
  | S754_infinity true => (-2, 0, 0)
  | S754_finite true m e => (-1, - e, Zneg m)
  | S754_zero _ => (0, 0, 0)
  | S754_finite false m e => (1, e, Zpos m)
  | S754_infinity false => (2, 0, 0)
  | S754_nan => (3, 0, 0)
  end.

Definition lex_le (a b : Z * Z * Z) : Prop :=
  let '(a1, a2, a3) := a in
  let '(b1, b2, b3) := b in
  a1 < b1 ∨ (a1 = b1 ∧ (a2 < b2 ∨ (a2 = b2 ∧ a3 <= b3))).

Definition lex_lt (a b : Z * Z * Z) : Prop :=
  let '(a1, a2, a3) := a in
  let '(b1, b2, b3) := b in
  a1 < b1 ∨ (a1 = b1 ∧ (a2 < b2 ∨ (a2 = b2 ∧ a3 < b3))).

Definition nan_free (row : list F64.float) : Prop :=
  Forall (λ x, F64.isnan x = false) row.

(** Whether the character [c] occurs in [s]. *)
Fixpoint contains_char (c : ascii) (s : string) : bool :=
  match s with
  | EmptyString => false
  | String d s' => Ascii.eqb c d || contains_char c s'
  end.

(** The 256 values of a byte, in order. *)
Definition all_bytes : list Byte.byte :=
  omap Byte.of_N (map N.of_nat (seq 0 256)).

(* ===================================================================== *)
(** * Proof automation *)
(* ===================================================================== *)

(** Unfolds one invocation down to the results of the library calls. *)
Ltac exec :=
  unfold run, script, main, postprocess, getitem, lift, print, sys_exit,
    environ_set, import_modules, mbind, mret, Py_bind, Py_ret, res_bind, res_ret in *;
  simpl in *.

(** Rewrites with every library result among the hypotheses. *)
Ltac feed :=
  repeat match goal with
  | H : _ = inl _ |- _ => rewrite H; clear H; simpl
  | H : _ = inr _ |- _ => rewrite H; clear H; simpl
  | H : _ !! _ = Some _ |- _ => rewrite H; clear H; simpl
  end.

(** Discharges [model_returns] and [probability_model] for the stand-in
    libraries by evaluation. *)
Ltac stub_returns :=
  exists "img.b64"%string, (text_of_string "  AAAA
"), [Byte.x00; Byte.x00; Byte.x00];
  eexists; repeat split; reflexivity.

(** The stand-in's [resize] keeps Pillow's contract. *)
Ltac stub_resize :=
  intros w h img Hw Hh; simpl;
  destruct w as [|w]; [lia|]; destruct h as [|h]; [lia|];
  eexists; split; [reflexivity|]; split;
  [by rewrite length_map, length_seq
  |apply Forall_map, Forall_forall; intros ? _;
   by rewrite length_map, length_seq].

Ltac stub_probability :=
  intros ? ? ? ? Hm Hp; simpl in Hm, Hp;
  injection Hm as <-; injection Hp as <-;
  eexists; split; [reflexivity|];
  split; [reflexivity|]; repeat constructor.

(* ===================================================================== *)
(** * Comparison of binary64 numbers *)
(* ===================================================================== *)

Lemma SFcompare_antisym (a b : spec_float) (c : comparison) :
  SFcompare a b = Some c → SFcompare b a = Some (CompOpp c).
Proof.
  destruct a as [sa|sa| |sa ma ea], b as [sb|sb| |sb mb eb]; simpl;
    try discriminate;
    try (destruct sa, sb; intros [= <-]; reflexivity);
    try (destruct sa; intros [= <-]; reflexivity);
    try (destruct sb; intros [= <-]; reflexivity);
    try (intros [= <-]; reflexivity).
  intros [= <-].
  assert (He : (eb ?= ea) = CompOpp (ea ?= eb)) by apply Z.compare_antisym.
  assert (Hm : Pos.compare_cont Eq mb ma = CompOpp (Pos.compare_cont Eq ma mb)).
  { symmetry. apply (Pos.compare_cont_antisym ma mb Eq). }
  rewrite He, Hm.
  destruct sa, sb, (ea ?= eb), (Pos.compare_cont Eq ma mb); reflexivity.
Qed.

Lemma SFcompare_refl (a : spec_float) :
  F64.isnan a = false → SFcompare a a = Some Eq.
Proof.
  destruct a as [s|s| |s m e]; simpl; try discriminate; intros _.
  - reflexivity.
  - by destruct s.
  - rewrite Z.compare_refl, Pos.compare_cont_refl. by destruct s.
Qed.

Lemma SFcompare_total (a b : spec_float) :
  F64.isnan a = false → F64.isnan b = false → ∃ c, SFcompare a b = Some c.
Proof.
  destruct a, b; simpl; try discriminate; intros _ _; eauto.
Qed.

Lemma leb_refl (a : F64.float) : F64.isnan a = false → F64.leb a a = true.
Proof.
  intros H. unfold F64.leb, SFleb. by rewrite SFcompare_refl.
Qed.

Lemma ltb_leb (a b : F64.float) : F64.ltb a b = true → F64.leb a b = true.
Proof.
  unfold F64.ltb, F64.leb, SFltb, SFleb.
  by destruct (SFcompare a b) as [[]|].
Qed.

Lemma leb_false_ltb (a b : F64.float) :
  F64.isnan a = false → F64.isnan b = false →
  F64.leb b a = false → F64.ltb a b = true.
Proof.
  intros Ha Hb. unfold F64.ltb, F64.leb, SFltb, SFleb.
  destruct (SFcompare_total b a Hb Ha) as [c Hc].
  rewrite Hc, (SFcompare_antisym _ _ _ Hc). by destruct c.
Qed.

Lemma ltb_not_leb (a b : F64.float) :
  F64.ltb a b = true → F64.leb b a = false.
Proof.
  unfold F64.ltb, F64.leb, SFltb, SFleb.
  destruct (SFcompare a b) as [c|] eqn:Hc; [|discriminate].
  rewrite (SFcompare_antisym _ _ _ Hc). by destruct c.
Qed.

Lemma isnan_eq (x : F64.float) : F64.isnan x = true → x = S754_nan.
Proof. by destruct x. Qed.

Lemma in_unit_not_nan (x : F64.float) :
  F64.in_unit x = true → F64.isnan x = false.
Proof. by destruct x. Qed.

Lemma ltb_false_leb (a b : F64.float) :
  F64.isnan a = false → F64.isnan b = false →
  F64.ltb a b = false → F64.leb b a = true.
Proof.
  intros Ha Hb. unfold F64.ltb, F64.leb, SFltb, SFleb.
  destruct (SFcompare_total a b Ha Hb) as [c Hc].
  rewrite Hc, (SFcompare_antisym _ _ _ Hc). by destruct c.
Qed.

Lemma leb_nan_l (x y : F64.float) : F64.isnan x = true → F64.leb x y = false.
Proof. intros ->%isnan_eq. by destruct y. Qed.

Lemma ltb_nan_l (x y : F64.float) : F64.isnan x = true → F64.ltb x y = false.
Proof. intros ->%isnan_eq. by destruct y. Qed.

(* ===================================================================== *)
(** * The order of binary64 numbers *)
(* ===================================================================== *)

Lemma leb_rank (a b : F64.float) :
  F64.isnan a = false → F64.isnan b = false →
  F64.leb a b = true ↔ lex_le (rank a) (rank b).
Proof.
  intros Ha Hb. unfold F64.leb, SFleb.
  destruct a as [sa|sa| |sa ma ea], b as [sb|sb| |sb mb eb];
    try discriminate; simpl;
    try (destruct sa; simpl; split; intros; try done; lia);
    try (destruct sb; simpl; split; intros; try done; lia);
    try (destruct sa, sb; simpl; split; intros; try done; lia).
  change (Pos.compare_cont Eq ma mb) with (ma ?= mb)%positive.
  destruct sa, sb; simpl;
    destruct (Z.compare_spec ea eb), (Pos.compare_spec ma mb); simpl;
    split; intros; try done; lia.
Qed.

Lemma ltb_rank (a b : F64.float) :
  F64.isnan a = false → F64.isnan b = false →
  F64.ltb a b = true ↔ lex_lt (rank a) (rank b).
Proof.
  intros Ha Hb. unfold F64.ltb, SFltb.
  destruct a as [sa|sa| |sa ma ea], b as [sb|sb| |sb mb eb];
    try discriminate; simpl;
    try (destruct sa; simpl; split; intros; try done; lia);
    try (destruct sb; simpl; split; intros; try done; lia);
    try (destruct sa, sb; simpl; split; intros; try done; lia).
  change (Pos.compare_cont Eq ma mb) with (ma ?= mb)%positive.
  destruct sa, sb; simpl;
    destruct (Z.compare_spec ea eb), (Pos.compare_spec ma mb); simpl;
    split; intros; try done; lia.
Qed.

Lemma leb_true_not_nan (a b : F64.float) :
  F64.leb a b = true → F64.isnan a = false ∧ F64.isnan b = false.
Proof. by destruct a, b. Qed.

Lemma ltb_true_not_nan (a b : F64.float) :
  F64.ltb a b = true → F64.isnan a = false ∧ F64.isnan b = false.
Proof. by destruct a, b. Qed.

Lemma leb_trans (a b c : F64.float) :
  F64.leb a b = true → F64.leb b c = true → F64.leb a c = true.
Proof.
  intros Hab Hbc.
  destruct (leb_true_not_nan _ _ Hab) as [Ha Hb].
  destruct (leb_true_not_nan _ _ Hbc) as [_ Hc].
  rewrite leb_rank in * by done.
  destruct (rank a) as [[? ?] ?], (rank b) as [[? ?] ?],
    (rank c) as [[? ?] ?]. simpl in *. lia.
Qed.

Lemma leb_ltb_trans (a b c : F64.float) :
  F64.leb a b = true → F64.ltb b c = true → F64.ltb a c = true.
Proof.
  intros Hab Hbc.
  destruct (leb_true_not_nan _ _ Hab) as [Ha Hb].
  destruct (ltb_true_not_nan _ _ Hbc) as [_ Hc].
  rewrite leb_rank in Hab by done. rewrite ltb_rank in * by done.
  destruct (rank a) as [[? ?] ?], (rank b) as [[? ?] ?],
    (rank c) as [[? ?] ?]. simpl in *. lia.
Qed.

Lemma ltb_leb_trans (a b c : F64.float) :
  F64.ltb a b = true → F64.leb b c = true → F64.ltb a c = true.
Proof.
  intros Hab Hbc.
  destruct (ltb_true_not_nan _ _ Hab) as [Ha Hb].
  destruct (leb_true_not_nan _ _ Hbc) as [_ Hc].
  rewrite leb_rank in Hbc by done. rewrite ltb_rank in * by done.
  destruct (rank a) as [[? ?] ?], (rank b) as [[? ?] ?],
    (rank c) as [[? ?] ?]. simpl in *. lia.
Qed.

Lemma rank_nan (x : F64.float) : fst (fst (rank x)) = 3 ↔ F64.isnan x = true.
Proof. destruct x as [s|[]| |[] m e]; simpl; split; intros; done || lia. Qed.

Lemma rank_eq_isnan (x y : F64.float) :
  rank x = rank y → F64.isnan x = F64.isnan y.
Proof.
  intros H. destruct (F64.isnan x) eqn:Hx.
  - symmetry. apply rank_nan. rewrite <- H. by apply rank_nan.
  - destruct (F64.isnan y) eqn:Hy; [|done].
    apply rank_nan in Hy. rewrite <- H in Hy. apply rank_nan in Hy.
    congruence.
Qed.

(** Numbers at the same place in the order are the same number. *)
Lemma rank_eq_same_number (x y : F64.float) :
  rank x = rank y → F64.same_number x y.
Proof.
  destruct x as [sx|[]| |[] mx ex], y as [sy|[]| |[] my ey]; simpl;
    intros H; try discriminate; try (by left); try (by right).
  - left. injection H as He Hm. f_equal; lia.
  - left. by injection H as -> ->.
Qed.

Lemma same_number_rank (x y : F64.float) :
  F64.same_number x y → rank x = rank y.
Proof.
  intros [->|[Hx Hy]]; [done|]. by destruct x, y.
Qed.

Lemma same_number_isnan (x y : F64.float) :
  F64.same_number x y → F64.isnan x = F64.isnan y.
Proof. intros H. by apply rank_eq_isnan, same_number_rank. Qed.

(** Between numbers that are not NaN: neither below the other means the
    same place in the order. *)
Lemma leb_not_ltb_rank (x m : F64.float) :
  F64.leb x m = true → F64.ltb x m = false → rank x = rank m.
Proof.
  intros Hle Hlt. destruct (leb_true_not_nan _ _ Hle) as [Hx Hm].
  rewrite leb_rank in Hle by done.
  assert (Hn : ¬ lex_lt (rank x) (rank m)).
  { rewrite <- ltb_rank by done. by rewrite Hlt. }
  destruct (rank x) as [[? ?] ?], (rank m) as [[? ?] ?]. simpl in *.
  f_equal; [f_equal|]; lia.
Qed.

Lemma leb_rank_r (x a b : F64.float) :
  rank a = rank b → F64.leb x a = F64.leb x b.
Proof.
  intros H. pose proof (rank_eq_isnan _ _ H) as Hn.
  destruct (F64.isnan x) eqn:Hx.
  { by rewrite !leb_nan_l. }
  destruct (F64.isnan a) eqn:Ha.
  { symmetry in Hn. apply isnan_eq in Ha as ->. apply isnan_eq in Hn as ->.
    done. }
  symmetry in Hn.
  destruct (F64.leb x a) eqn:E1, (F64.leb x b) eqn:E2; try done.
  - rewrite leb_rank in E1 by done. rewrite H in E1.
    rewrite <- leb_rank in E1 by done. congruence.
  - rewrite leb_rank in E2 by done. rewrite <- H in E2.
    rewrite <- leb_rank in E2 by done. congruence.
Qed.

Lemma leb_rank_l (a b y : F64.float) :
  rank a = rank b → F64.leb a y = F64.leb b y.
Proof.
  intros H. pose proof (rank_eq_isnan _ _ H) as Hn.
  destruct (F64.isnan a) eqn:Ha.
  { symmetry in Hn. by rewrite !leb_nan_l. }
  symmetry in Hn.
  destruct (F64.isnan y) eqn:Hy.
  { apply isnan_eq in Hy as ->. by destruct a, b. }
  destruct (F64.leb a y) eqn:E1, (F64.leb b y) eqn:E2; try done.
  - rewrite leb_rank in E1 by done. rewrite H in E1.
    rewrite <- leb_rank in E1 by done. congruence.
  - rewrite leb_rank in E2 by done. rewrite <- H in E2.
    rewrite <- leb_rank in E2 by done. congruence.
Qed.

Lemma ltb_rank_l (a b y : F64.float) :
  rank a = rank b → F64.ltb a y = F64.ltb b y.
Proof.
  intros H. pose proof (rank_eq_isnan _ _ H) as Hn.
  destruct (F64.isnan a) eqn:Ha.
  { symmetry in Hn. by rewrite !ltb_nan_l. }
  symmetry in Hn.
  destruct (F64.isnan y) eqn:Hy.
  { apply isnan_eq in Hy as ->. by destruct a, b. }
  destruct (F64.ltb a y) eqn:E1, (F64.ltb b y) eqn:E2; try done.
  - rewrite ltb_rank in E1 by done. rewrite H in E1.
    rewrite <- ltb_rank in E1 by done. congruence.
  - rewrite ltb_rank in E2 by done. rewrite <- H in E2.
    rewrite <- ltb_rank in E2 by done. congruence.
Qed.

Lemma ltb_rank_r (x a b : F64.float) :
  rank a = rank b → F64.ltb x a = F64.ltb x b.
Proof.
  intros H. pose proof (rank_eq_isnan _ _ H) as Hn.
  destruct (F64.isnan x) eqn:Hx.
  { by rewrite !ltb_nan_l. }
  destruct (F64.isnan a) eqn:Ha.
  { symmetry in Hn. apply isnan_eq in Ha as ->. apply isnan_eq in Hn as ->.
    done. }
  symmetry in Hn.
  destruct (F64.ltb x a) eqn:E1, (F64.ltb x b) eqn:E2; try done.
  - rewrite ltb_rank in E1 by done. rewrite H in E1.
    rewrite <- ltb_rank in E1 by done. congruence.
  - rewrite ltb_rank in E2 by done. rewrite <- H in E2.
    rewrite <- ltb_rank in E2 by done. congruence.
Qed.

(* ===================================================================== *)
(** * [argmax] and [max] *)
(* ===================================================================== *)

Lemma maximum_not_nan_l (a b : F64.float) :
  F64.isnan a = false →
  Np.maximum a b = if F64.ltb b a then a else b.
Proof. intros Ha. unfold Np.maximum. by rewrite Ha, orb_false_r. Qed.

Lemma fold_maximum_nan (xs : list F64.float) (x : F64.float) :
  F64.isnan x = true → fold_left Np.maximum xs x = x.
Proof.
  intros Hx. induction xs as [|y xs IH]; simpl; [done|].
  unfold Np.maximum at 2. by rewrite Hx, orb_true_r.
Qed.

(** The running maximum of [np.max] dominates its start and every element
    met. *)
Lemma fold_maximum_upper (xs : list F64.float) (m : F64.float) :
  F64.isnan m = false → nan_free xs →
  F64.isnan (fold_left Np.maximum xs m) = false ∧
  F64.leb m (fold_left Np.maximum xs m) = true ∧
  Forall (λ x, F64.leb x (fold_left Np.maximum xs m) = true) xs.
Proof.
  revert m. induction xs as [|x xs IH]; intros m Hm Hxs.
  { split_and!; [done|by apply leb_refl|constructor]. }
  apply Forall_cons in Hxs as [Hx Hxs].
  cbn [fold_left]. rewrite (maximum_not_nan_l m x Hm).
  destruct (F64.ltb x m) eqn:Hlt.
  - destruct (IH m Hm Hxs) as (Hn & Hmc & Hall). split_and!; try done.
    constructor; [|done]. eapply leb_trans; [|exact Hmc]. by apply ltb_leb.
  - destruct (IH x Hx Hxs) as (Hn & Hxc & Hall). split_and!; try done.
    + eapply leb_trans; [|exact Hxc]. by apply ltb_false_leb.
    + by constructor.
Qed.

Lemma fold_maximum_not_nan (xs : list F64.float) (m : F64.float) :
  F64.isnan m = false → nan_free xs →
  F64.isnan (fold_left Np.maximum xs m) = false.
Proof. intros Hm Hxs. by apply fold_maximum_upper. Qed.

(** The maximum is one of the numbers reduced. *)
Lemma fold_maximum_elem (xs : list F64.float) (m : F64.float) :
  fold_left Np.maximum xs m = m ∨ fold_left Np.maximum xs m ∈ xs.
Proof.
  revert m. induction xs as [|x xs IH]; intros m; simpl; [by left|].
  destruct (IH (Np.maximum m x)) as [H|H].
  - rewrite H. unfold Np.maximum.
    destruct (F64.ltb x m || F64.isnan m); [by left|right; constructor].
  - right. by constructor.
Qed.

(** The scan of [argmax] and the reduction of [np.max] stay at the same
    place in the order: the entry at the index selected and the maximum
    are the same number. *)
Lemma argmax_loop_reads_max (row ip : list F64.float) (mp m : F64.float)
    (max_ind i : nat) :
  F64.isnan mp = false → rank mp = rank m →
  row !! max_ind = Some mp →
  (∀ j x, ip !! j = Some x → row !! (i + j)%nat = Some x) →
  ∃ entry,
    row !! Np.argmax_loop mp max_ind i ip = Some entry ∧
    rank entry = rank (fold_left Np.maximum ip m).
Proof.
  revert mp m max_ind i.
  induction ip as [|x ip IH]; intros mp m max_ind i Hmp Hrank Hrow Hip.
  { by exists mp. }
  assert (Hm : F64.isnan m = false) by (by rewrite <- (rank_eq_isnan mp m)).
  assert (Hx : row !! i = Some x).
  { specialize (Hip 0%nat x eq_refl). by rewrite Nat.add_0_r in Hip. }
  assert (Hip' : ∀ j y, ip !! j = Some y → row !! (S i + j)%nat = Some y).
  { intros j y Hj. specialize (Hip (S j) y Hj).
    by replace (S i + j)%nat with (i + S j)%nat by lia. }
  cbn [Np.argmax_loop fold_left]. rewrite (maximum_not_nan_l m x Hm).
  destruct (F64.isnan x) eqn:Hnan.
  - rewrite (leb_nan_l x mp Hnan), (ltb_nan_l x m Hnan). cbn [negb].
    exists x. by rewrite fold_maximum_nan.
  - rewrite <- (ltb_rank_r x mp m Hrank).
    destruct (F64.leb x mp) eqn:Hle; cbn [negb].
    + destruct (F64.ltb x mp) eqn:Hlt.
      * by apply IH.
      * apply IH; try done.
        symmetry. by apply leb_not_ltb_rank.
    + assert (Hlt : F64.ltb x mp = false).
      { destruct (F64.ltb x mp) eqn:E; [|done].
        apply ltb_leb in E. congruence. }
      rewrite Hlt. by apply IH.
Qed.

Lemma argmax_loop_bound (ip : list F64.float) (mp : F64.float)
    (max_ind i : nat) :
  (max_ind < i)%nat → (Np.argmax_loop mp max_ind i ip < i + length ip)%nat.
Proof.
  revert mp max_ind i.
  induction ip as [|x ip IH]; intros mp max_ind i Hlt; simpl; [lia|].
  destruct (negb (F64.leb x mp)).
  - destruct (F64.isnan x); [lia|].
    specialize (IH x i (S i)). lia.
  - specialize (IH mp max_ind (S i)). lia.
Qed.

(** One non-empty row: the index [np.argmax] selects is within the row, the
    value [np.max] returns is an entry of the row, and it is the same
    number as the entry at the index. *)
Lemma argmax_reads_max (row : list F64.float) :
  row ≠ [] →
  ∃ i entry confidence,
    Np.argmax row = inr i ∧
    Np.amax (Np.array [row]) = inr confidence ∧
    row !! i = Some entry ∧
    F64.same_number entry confidence ∧
    confidence ∈ row ∧
    (i < length row)%nat.
Proof.
  destruct row as [|x ip]; [done|]. intros _.
  unfold Np.amax. cbn [Np.array Np.rows concat]. rewrite app_nil_r.
  cbn [app Np.argmax].
  assert (Helem : fold_left Np.maximum ip x ∈ x :: ip).
  { destruct (fold_maximum_elem ip x) as [->|H]; [left|by right]. }
  destruct (F64.isnan x) eqn:Hx.
  - exists 0%nat, x, x. rewrite fold_maximum_nan in * by done.
    split_and!; try done; [by left|simpl; lia].
  - destruct (argmax_loop_reads_max (x :: ip) ip x x 0 1)
      as (entry & Hentry & Hrank); try done.
    exists (Np.argmax_loop x 0 1 ip), entry, (fold_left Np.maximum ip x).
    split_and!; try done.
    + by apply rank_eq_same_number.
    + pose proof (argmax_loop_bound ip x 0 1). simpl. lia.
Qed.
(* ===================================================================== *)
(** * The [.4f] conversion *)
(* ===================================================================== *)

Lemma is_digit_digit_char (d : Z) : Fmt.is_digit (Fmt.digit_char d) = true.
Proof.
  unfold Fmt.digit_char.
  assert (H : 0 <= d mod 10 < 10) by (apply Z.mod_pos_bound; lia).
  assert (Hk : d mod 10 = 0 ∨ d mod 10 = 1 ∨ d mod 10 = 2 ∨ d mod 10 = 3 ∨
               d mod 10 = 4 ∨ d mod 10 = 5 ∨ d mod 10 = 6 ∨ d mod 10 = 7 ∨
               d mod 10 = 8 ∨ d mod 10 = 9) by lia.
  destruct Hk as [->|[->|[->|[->|[->|[->|[->|[->|[->| ->]]]]]]]]];
    reflexivity.
Qed.

Lemma all_digits_frac4 (r : Z) : Fmt.all_digits (Fmt.frac4 r) = true.
Proof.
  unfold Fmt.all_digits, Fmt.frac4. simpl.
  by rewrite !is_digit_digit_char.
Qed.

Lemma all_digits_uint (d : Decimal.uint) :
  Fmt.all_digits (NilEmpty.string_of_uint d) = true.
Proof.
  unfold Fmt.all_digits. induction d; simpl; auto.
Qed.

Lemma int_part_digits (n : Z) :
  Fmt.int_part n ≠ EmptyString ∧ Fmt.all_digits (Fmt.int_part n) = true.
Proof.
  unfold Fmt.int_part, NilZero.string_of_uint.
  destruct (N.to_uint (Z.to_N n)) eqn:E;
    try (rewrite <- E at 2; split; [simpl; discriminate|];
         rewrite E; apply all_digits_uint).
  by split.
Qed.

Lemma four_decimals_fixed4 (s : bool) (n : Z) :
  Fmt.four_decimals (Fmt.sign_str s +:+ Fmt.fixed4 n).
Proof.
  exists s, (Fmt.int_part (n / 10000)), (Fmt.frac4 (n mod 10000)).
  destruct (int_part_digits (n / 10000)) as [Hne Hd].
  repeat split; try done. apply all_digits_frac4.
Qed.

(** A finite confidence is printed with exactly four decimal places. *)
Lemma format_4f_finite (x : F64.float) :
  F64.is_finite x = true → Fmt.four_decimals (Fmt.format_4f x).
Proof.
  destruct x as [s|s| |s m e]; try discriminate; intros _;
    apply four_decimals_fixed4.
Qed.

Lemma round_half_even_bounds (n d k : Z) :
  0 < d → 0 <= n <= k * d → 0 <= Fmt.round_half_even n d <= k.
Proof.
  intros Hd Hn. unfold Fmt.round_half_even.
  pose proof (Z.div_mod n d ltac:(lia)) as Hdiv.
  pose proof (Z.mod_pos_bound n d Hd) as Hr.
  assert (Hq : 0 <= n / d) by (apply Z.div_pos; lia).
  assert (Hqk : n / d <= k) by (apply Z.div_le_upper_bound; lia).
  destruct (Z.eq_dec (n / d) k) as [Heq|Hne].
  - assert (n mod d = 0) by nia.
    replace (2 * (n mod d) ?= d) with Lt; [lia|].
    symmetry. apply Z.compare_lt_iff. lia.
  - destruct (2 * (n mod d) ?= d); [destruct (Z.even (n / d))| |]; lia.
Qed.

Lemma digits2_pos_bound (m : positive) :
  Zpos m < 2 ^ Zpos (digits2_pos m).
Proof.
  induction m as [p IH|p IH|]; simpl digits2_pos;
    rewrite ?Pos2Z.inj_succ, ?Z.pow_succ_r by lia; lia.
Qed.

(** A valid binary64 number in [0,1] is printed as a decimal in [0,1]: the
    magnitude is at most 1.0000, and a minus sign appears on [-0.0] only. *)
Lemma round4_in_unit (x : F64.float) :
  F64.valid x = true → F64.in_unit x = true →
  ∃ s n, Fmt.round4 x = Some (s, n) ∧ 0 <= n <= 10000 ∧
         (s = true → n = 0).
Proof.
  intros Hv Hu. destruct x as [s|s| |s m e].
  { exists s, 0. split; [done|lia]. }
  { by destruct s. }
  { done. }
  exists s, (Fmt.scaled4 m e). split; [reflexivity|].
  apply andb_true_iff in Hu as [H0 H1].
  destruct s; [discriminate|]. split; [|discriminate].
  unfold F64.valid, valid_binary, bounded, canonical_mantissa, fexp, emin,
    F64.prec, F64.emax in Hv.
  apply andb_true_iff in Hv as [Hc _]. apply Z.eqb_eq in Hc.
  pose proof (digits2_pos_bound m) as Hm.
  assert (Hdig : Zpos (digits2_pos m) <= 53) by lia.
  assert (Hm53 : Zpos m < 2 ^ 53).
  { eapply Z.lt_le_trans; [exact Hm|]. apply Z.pow_le_mono_r; lia. }
  unfold F64.leb, SFleb, F64.one in H1.
  change (F64.of_Z 1) with (S754_finite false 4503599627370496 (-52)) in H1.
  cbn [SFcompare] in H1.
  destruct (e ?= -52) eqn:He.
  - apply Z.compare_eq in He. subst e.
    assert (Hle : Zpos m <= 4503599627370496).
    { change (Zpos m <= 4503599627370496)
        with ((m ?= 4503599627370496)%positive <> Gt).
      unfold Pos.compare.
      by destruct (Pos.compare_cont Eq m 4503599627370496). }
    unfold Fmt.scaled4.
    apply (round_half_even_bounds _ _ 10000); [reflexivity|].
    change (2 ^ Z.pos 52) with 4503599627370496. lia.
  - rewrite Z.compare_lt_iff in He.
    destruct e as [|p|p]; try lia.
    unfold Fmt.scaled4. apply round_half_even_bounds.
    + apply Z.pow_pos_nonneg; lia.
    + assert (2 ^ 53 <= 2 ^ Zpos p) by (apply Z.pow_le_mono_r; lia).
      nia.
  - discriminate.
Qed.

Lemma in_unit_valid_finite (x : F64.float) :
  F64.in_unit x = true → F64.is_finite x = true.
Proof. by destruct x as [s|[]| |s m e]. Qed.

(* ===================================================================== *)
(** * Preprocessing *)
(* ===================================================================== *)

(** Every 8-bit channel value divided by 255.0 is a valid binary64 number
    in [0,1]: checked on the 256 values. *)
Lemma div255_in_unit (b : Byte.byte) :
  F64.valid (Np.div255 b) = true ∧ F64.in_unit (Np.div255 b) = true.
Proof. destruct b; vm_compute; split; reflexivity. Qed.

Lemma true_divide_255_in_unit (a : Np.tensor3 Byte.byte) :
  Forall (Forall (Forall (λ x, F64.in_unit x = true)))
    (Np.true_divide_255 a).
Proof.
  unfold Np.true_divide_255.
  apply Forall_map, Forall_forall. intros row _.
  apply Forall_map, Forall_forall. intros px _.
  apply Forall_map, Forall_forall. intros b _.
  apply div255_in_unit.
Qed.

Lemma preprocess_shape (img : rgb_image) (w h : nat) :
  length img = h → Forall (λ row, length row = w) img →
  Np.has_shape4 1 h w 3
    (Np.expand_dims_0 (Np.true_divide_255 (Np.array_of_rgb img))).
Proof.
  intros Hh Hw. split; [done|].
  apply Forall_cons; split; [|done]. split.
  - unfold Np.true_divide_255, Np.array_of_rgb. by rewrite !length_map.
  - unfold Np.true_divide_255, Np.array_of_rgb.
    apply Forall_map, Forall_map.
    eapply Forall_impl; [exact Hw|]. intros row Hrow. simpl.
    split; [by rewrite !length_map|].
    apply Forall_map, Forall_map, Forall_forall.
    intros [[r g] b] _. reflexivity.
Qed.

(* ===================================================================== *)
(** * [str.strip()] *)
(* ===================================================================== *)

Lemma lstrip_spec (s : text) :
  ∃ l, s = l ++ lstrip s ∧ Forall (λ c, py_isspace c = true) l ∧
       ∀ c t, lstrip s = c :: t → py_isspace c = false.
Proof.
  induction s as [|c s (l & Hs & Hl & Hhd)]; simpl.
  - exists []. repeat split; [constructor|discriminate].
  - destruct (py_isspace c) eqn:Hc.
    + exists (c :: l). repeat split; [by rewrite Hs at 1|by constructor|done].
    + exists []. repeat split; [constructor|]. by intros c' t [= <- _].
Qed.

Lemma rstrip_spec (s : text) :
  ∃ r, s = rstrip s ++ r ∧ Forall (λ c, py_isspace c = true) r ∧
       ∀ t c, rstrip s = t ++ [c] → py_isspace c = false.
Proof.
  destruct (lstrip_spec (rev s)) as (l & Hs & Hl & Hhd).
  exists (rev l). unfold rstrip. repeat split.
  - rewrite <- rev_app_distr, <- Hs. by rewrite rev_involutive.
  - by apply List.Forall_rev.
  - intros t c Ht. apply (Hhd c (rev t)).
    rewrite <- (rev_involutive (lstrip (rev s))), Ht, rev_app_distr.
    reflexivity.
Qed.

(** [strip] removes a run of white space at each end and nothing else. *)
Lemma strip_spec (s : text) :
  ∃ l r, s = l ++ strip s ++ r ∧
    Forall (λ c, py_isspace c = true) l ∧
    Forall (λ c, py_isspace c = true) r ∧
    (∀ c t, strip s = c :: t → py_isspace c = false) ∧
    (∀ t c, strip s = t ++ [c] → py_isspace c = false).
Proof.
  destruct (lstrip_spec s) as (l & Hs & Hl & Hhd).
  destruct (rstrip_spec (lstrip s)) as (r & Hs' & Hr & Hlast).
  exists l, r. unfold strip. repeat split; try done.
  - by rewrite <- Hs', <- Hs.
  - intros c t Ht. apply (Hhd c (t ++ r)). by rewrite Hs', Ht.
Qed.

(* ===================================================================== *)
(** * Running the script *)
(* ===================================================================== *)

Lemma lookup_1_length {A} (l : list A) (x : A) :
  l !! 1%nat = Some x → (length l <? 2)%nat = false.
Proof.
  intros H. apply lookup_lt_Some in H. apply Nat.ltb_ge. lia.
Qed.

Lemma length_lookup_1 {A} (l : list A) :
  (length l <? 2)%nat = false → ∃ x, l !! 1%nat = Some x.
Proof.
  intros H. apply Nat.ltb_ge in H.
  destruct l as [|a [|b l]]; simpl in H; try lia. by exists b.
Qed.

Lemma run_no_argument L argv env :
  (length argv < 2)%nat → run L argv env = usage_error L env.
Proof.
  intros H. apply Nat.ltb_lt in H. exec. by rewrite H.
Qed.

Lemma run_pipeline_fails L argv path e env :
  argv !! 1%nat = Some path → pipeline_fails L path e →
  run L argv env = crashed L e env.
Proof.
  intros Hp Hf. pose proof (lookup_1_length _ _ Hp) as Hlen.
  destruct Hf; exec; rewrite Hlen; simpl; feed; try reflexivity.
  destruct (Np.argmax_axis1 preds) as [e1|indices]; simpl in *;
    [by simplify_eq|].
  destruct (indices !! 0%nat) as [i|]; simpl in *; [|by simplify_eq].
  destruct (class_names !! i) as [label|]; simpl in *; [|by simplify_eq].
  destruct (Np.amax preds) as [e1|c]; simpl in *; by simplify_eq.
Qed.

Lemma run_model_returns L argv preds env :
  model_returns L argv preds →
  run L argv env =
    match postprocess preds with
    | inl e => crashed L e env
    | inr (label, confidence) => printed L (output_line label confidence) env
    end.
Proof.
  intros (path & content & img_bytes & model & Hp & Hr & Hb & Hm & Hi).
  pose proof (lookup_1_length _ _ Hp) as Hlen.
  destruct (load_and_preprocess_image_from_bytes L img_bytes
              default_target_size) as [e|t] eqn:Ht;
    unfold mbind, res_bind in Hi; [discriminate|].
  exec. rewrite Hlen. simpl. feed.
  destruct (Np.argmax_axis1 preds) as [e1|indices]; simpl; [done|].
  destruct (indices !! 0%nat) as [i|]; simpl; [|done].
  destruct (class_names !! i) as [label|]; simpl; [|done].
  by destruct (Np.amax preds) as [e1|c].
Qed.

(** Every invocation with a path argument either fails at one stage of the
    pipeline or reaches the final [print]; which of the two does not depend
    on the environment. *)
Lemma run_cases L argv path :
  argv !! 1%nat = Some path →
  (∃ e, pipeline_fails L path e ∧ ∀ env, run L argv env = crashed L e env) ∨
  (∃ preds label confidence,
      model_returns L argv preds ∧
      postprocess preds = inr (label, confidence) ∧
      ∀ env, run L argv env = printed L (output_line label confidence) env).
Proof.
  intros Hp.
  assert (Hcrash : ∀ e, pipeline_fails L path e →
            ∃ e, pipeline_fails L path e ∧
                 ∀ env, run L argv env = crashed L e env).
  { intros e He. exists e. split; [done|].
    intros env. by eapply run_pipeline_fails. }
  destruct (open_read L path) as [e|content] eqn:Hr.
  { left. apply (Hcrash e). by apply fail_open. }
  destruct (b64decode L (strip content)) as [e|img_bytes] eqn:Hb.
  { left. apply (Hcrash e). by eapply fail_b64decode. }
  destruct (load_model L model_path) as [e|model] eqn:Hm.
  { left. apply (Hcrash e). by eapply fail_load_model. }
  destruct (load_and_preprocess_image_from_bytes L img_bytes
              default_target_size) as [e|t] eqn:Ht.
  { left. apply (Hcrash e). by eapply fail_image. }
  destruct (model t) as [e|preds] eqn:Hpred.
  { left. apply (Hcrash e). by eapply fail_predict. }
  assert (Hret : model_returns L argv preds).
  { exists path, content, img_bytes, model. repeat split; try done.
    rewrite Ht. exact Hpred. }
  destruct (postprocess preds) as [e|[label c]] eqn:Hpost.
  { left. apply (Hcrash e). by eapply fail_postprocess. }
  right. exists preds, label, c. repeat split; try done.
  intros env. rewrite (run_model_returns _ _ _ _ Hret). by rewrite Hpost.
Qed.


(** Exit status 0 is the mark of a run that reached the final [print]. *)
Lemma run_success_inv L argv env :
  exit_status (run L argv env) = 0 →
  ∃ preds label confidence,
    model_returns L argv preds ∧
    postprocess preds = inr (label, confidence) ∧
    run L argv env = printed L (output_line label confidence) env.
Proof.
  intros Hs.
  destruct (length argv <? 2)%nat eqn:Hlen.
  { apply Nat.ltb_lt in Hlen. rewrite (run_no_argument _ _ _ Hlen) in Hs.
    discriminate. }
  destruct (length_lookup_1 _ Hlen) as [path Hp].
  destruct (run_cases L argv path Hp)
    as [(e & _ & He)|(preds & label & c & Hret & Hpost & Hrun)].
  - rewrite He in Hs. discriminate.
  - exists preds, label, c. by rewrite Hrun.
Qed.

(* ===================================================================== *)
(** * The contract of the script *)
(* ===================================================================== *)

Lemma postprocess_one_row (row : list F64.float) (i : nat)
    (label : string) (confidence : F64.float) :
  Np.argmax row = inr i → class_names !! i = Some label →
  Np.amax (Np.array [row]) = inr confidence →
  postprocess (Np.array [row]) = inr (label, confidence).
Proof.
  intros Hi Hl Hc.
  unfold postprocess, Np.argmax_axis1, mbind, res_bind, mret, res_ret.
  destruct row as [|x ip]; [done|]. cbn [Np.array Np.ncols Np.rows length].
  cbn [Nat.eqb Np.argmax_rows]. unfold mbind, res_bind, mret, res_ret.
  rewrite Hi, Hc.
  replace (getitem [i] 0) with (inr i : res nat) by done.
  unfold getitem. by rewrite Hl.
Qed.

Lemma argmax_pair (a b : F64.float) :
  F64.isnan a = false →
  Np.argmax [a; b] = inr (if F64.leb b a then 0%nat else 1%nat) ∧
  Np.amax (Np.array [[a; b]]) = inr (if F64.ltb b a then a else b).
Proof.
  intros Ha. unfold Np.argmax, Np.amax, Np.maximum. simpl.
  rewrite Ha, orb_false_r.
  destruct (F64.leb b a); simpl; [done|]. by destruct (F64.isnan b).
Qed.

Lemma model_returns_predict L argv preds :
  model_returns L argv preds →
  ∃ model t, load_model L model_path = inr model ∧ model t = inr preds.
Proof.
  intros (path & content & img_bytes & model & _ & _ & _ & Hm & Hi).
  exists model.
  destruct (load_and_preprocess_image_from_bytes L img_bytes
              default_target_size) as [e|t]; [discriminate|].
  by exists t.
Qed.

Lemma model_returns_argv L argv1 argv2 preds :
  argv1 !! 1%nat = argv2 !! 1%nat →
  model_returns L argv1 preds → model_returns L argv2 preds.
Proof.
  intros Heq (path & content & img_bytes & model & Hp & H).
  exists path, content, img_bytes, model. by rewrite <- Heq.
Qed.

(** What the script computes from one row of two probabilities. *)
Lemma postprocess_probability_row (row : list F64.float) :
  probability_row row →
  ∃ i label confidence,
    Np.argmax row = inr i ∧ (i < 2)%nat ∧
    class_names !! i = Some label ∧ confidence ∈ row ∧
    Np.amax (Np.array [row]) = inr confidence ∧
    postprocess (Np.array [row]) = inr (label, confidence) ∧
    F64.valid confidence = true ∧ F64.in_unit confidence = true.
Proof.
  intros [Hlen Hrow].
  destruct (argmax_reads_max row)
    as (i & entry & c & Hi & Hc & Hic & Hsame & Hin & Hlt).
  { by destruct row. }
  rewrite Hlen in Hlt.
  assert (Hl : ∃ label, class_names !! i = Some label).
  { destruct i as [|[|i]]; [by eexists|by eexists|lia]. }
  destruct Hl as [label Hl].
  rewrite Forall_forall in Hrow. destruct (Hrow c Hin) as [Hv Hu].
  exists i, label, c. split_and!; try done.
  by apply (postprocess_one_row row i).
Qed.

(** The comparisons behind the two examples of the spec, in binary32 and
    in binary64. *)
Lemma example_comparisons :
  (F64.leb (F64.lit32 1 10) (F64.lit32 9 10) = true ∧
   F64.ltb (F64.lit32 1 10) (F64.lit32 9 10) = true) ∧
  F64.leb (F64.lit32 8 10) (F64.lit32 2 10) = false ∧
  (F64.leb (F64.lit 1 10) (F64.lit 9 10) = true ∧
   F64.ltb (F64.lit 1 10) (F64.lit 9 10) = true) ∧
  F64.leb (F64.lit 8 10) (F64.lit 2 10) = false.
Proof. vm_compute. by repeat split. Qed.

(** C1. For a two-class prediction [[a, b]] (no NaN), the script takes the
    index of the larger entry, the first one on a tie, and prints the
    class name at that index.  The confidence it prints, formatted with
    [.4f], is the maximum value itself: one of the two entries, not below
    either, and the same number as the entry at the index (when the two
    entries are zeros of different sign, it is the second one).  For
    [0.9, 0.1] the line is [Marigold|0.9000] and for [0.2, 0.8] it is
    [Scarlet Sage|0.8000], whether the vector holds binary32 numbers (as
    Keras returns them) or binary64 numbers. *)
Theorem C1_argmax_label_confidence (L : Libs) (argv : list string)
    (env : gmap string string) (a b : F64.float) :
  model_returns L argv (Np.array [[a; b]]) →
  F64.isnan a = false → F64.isnan b = false →
  ∃ i label entry confidence,
    Np.argmax [a; b] = inr i ∧
    class_names !! i = Some label ∧
    [a; b] !! i = Some entry ∧
    Np.amax (Np.array [[a; b]]) = inr confidence ∧
    (confidence = a ∨ confidence = b) ∧
    F64.same_number entry confidence ∧
    F64.leb a confidence = true ∧ F64.leb b confidence = true ∧
    (i = 1%nat → F64.ltb a b = true) ∧
    (F64.leb b a = true → i = 0%nat ∧ label = "Marigold") ∧
    (F64.leb b a = false → i = 1%nat ∧ label = "Scarlet Sage") ∧
    run L argv env
      = printed L (label +:+ "|" +:+ Fmt.format_4f confidence) env ∧
    (a = F64.lit32 9 10 → b = F64.lit32 1 10 →
       out_stdout (run L argv env) = ["Marigold|0.9000"]) ∧
    (a = F64.lit32 2 10 → b = F64.lit32 8 10 →
       out_stdout (run L argv env) = ["Scarlet Sage|0.8000"]) ∧
    (a = F64.lit 9 10 → b = F64.lit 1 10 →
       out_stdout (run L argv env) = ["Marigold|0.9000"]) ∧
    (a = F64.lit 2 10 → b = F64.lit 8 10 →
       out_stdout (run L argv env) = ["Scarlet Sage|0.8000"]).
Proof.
  intros Hret Ha Hb.
  destruct (argmax_pair a b Ha) as [Hi Hc].
  destruct example_comparisons as ([E1 E1'] & E2 & [E3 E3'] & E4).
  rewrite (run_model_returns _ _ _ env Hret).
  destruct (F64.leb b a) eqn:Hle.
  - destruct (F64.ltb b a) eqn:Hlt.
    + exists 0%nat, "Marigold", a, a.
      rewrite (postprocess_one_row [a; b] 0 "Marigold" a Hi eq_refl Hc).
      split_and!; try first [exact Hi|exact Hc|exact Hle|reflexivity].
      * by left.
      * by left.
      * by apply leb_refl.
      * discriminate.
      * by split.
      * discriminate.
      * intros -> ->. by vm_compute.
      * intros -> ->. congruence.
      * intros -> ->. by vm_compute.
      * intros -> ->. congruence.
    + pose proof (leb_not_ltb_rank b a Hle Hlt) as Hrank.
      exists 0%nat, "Marigold", a, b.
      rewrite (postprocess_one_row [a; b] 0 "Marigold" b Hi eq_refl Hc).
      split_and!; try first [exact Hi|exact Hc|reflexivity].
      * by right.
      * by apply rank_eq_same_number.
      * rewrite (leb_rank_r a b a Hrank). by apply leb_refl.
      * by apply leb_refl.
      * discriminate.
      * by split.
      * discriminate.
      * intros -> ->. congruence.
      * intros -> ->. congruence.
      * intros -> ->. congruence.
      * intros -> ->. congruence.
  - assert (Hlt : F64.ltb b a = false).
    { destruct (F64.ltb b a) eqn:E; [|done]. apply ltb_leb in E.
      congruence. }
    rewrite Hlt in Hc.
    exists 1%nat, "Scarlet Sage", b, b.
    rewrite (postprocess_one_row [a; b] 1 "Scarlet Sage" b Hi eq_refl Hc).
    pose proof (leb_false_ltb a b Ha Hb Hle) as Hab.
    split_and!; try first [exact Hi|exact Hc|reflexivity].
    + by right.
    + by left.
    + by apply ltb_leb.
    + by apply leb_refl.
    + by intros _.
    + discriminate.
    + by split.
    + intros -> ->. congruence.
    + intros -> ->. by vm_compute.
    + intros -> ->. congruence.
    + intros -> ->. by vm_compute.
Qed.

Lemma C1_witness :
  out_stdout (run Stub.good Stub.argv ∅) = ["Marigold|0.9000"] ∧
  out_stdout (run (Stub.libs Stub.files true (inr Stub.sage)) Stub.argv ∅)
    = ["Scarlet Sage|0.8000"].
Proof.
  split.
  - destruct (C1_argmax_label_confidence Stub.good Stub.argv ∅
                (F64.lit32 9 10) (F64.lit32 1 10))
      as (i & label & entry & c & _ & _ & _ & _ & _ & _ & _ & _ & _ & _ & _
          & _ & H & _);
      [stub_returns|reflexivity|reflexivity|].
    by apply H.
  - destruct (C1_argmax_label_confidence
                (Stub.libs Stub.files true (inr Stub.sage)) Stub.argv ∅
                (F64.lit32 2 10) (F64.lit32 8 10))
      as (i & label & entry & c & _ & _ & _ & _ & _ & _ & _ & _ & _ & _ & _
          & _ & _ & H & _);
      [stub_returns|reflexivity|reflexivity|].
    by apply H.
Defined.

(** C2. Invoked without a file path ([sys.argv] holds at most the script
    name), the script prints exactly the line [Error|0.0] and exits with
    status 1; this is [sys.exit], not an uncaught exception. *)
Theorem C2_missing_argument (L : Libs) (argv : list string)
    (env : gmap string string) :
  (length argv < 2)%nat →
  out_stdout (run L argv env) = ["Error|0.0"] ∧
  exit_status (run L argv env) = 1 ∧
  traceback (run L argv env) = None.
Proof.
  intros H. by rewrite (run_no_argument L argv env H).
Qed.

Lemma C2_witness :
  out_stdout (run Stub.good ["ml/predict.py"] ∅) = ["Error|0.0"] ∧
  exit_status (run Stub.good ["ml/predict.py"] ∅) = 1 ∧
  traceback (run Stub.good ["ml/predict.py"] ∅) = None.
Proof.
  apply (C2_missing_argument Stub.good ["ml/predict.py"] ∅). simpl. lia.
Defined.

Lemma postprocess_label (preds : Np.array2) (label : string)
    (c : F64.float) :
  postprocess preds = inr (label, c) → label ∈ class_names.
Proof.
  unfold postprocess, mbind, res_bind, mret, res_ret. intros H.
  destruct (Np.argmax_axis1 preds) as [e|indices]; [done|].
  destruct (getitem indices 0) as [e|i]; [done|].
  unfold getitem in H.
  destruct (class_names !! i) as [l|] eqn:Hl; [|done].
  destruct (Np.amax preds); [done|]. injection H as <- _.
  by eapply list_elem_of_lookup_2.
Qed.

Lemma string_length_app (s t : string) :
  String.length (s +:+ t) = (String.length s + String.length t)%nat.
Proof. induction s as [|c s IH]; simpl; [done|]. by rewrite IH. Qed.

(** A number with four decimal places takes six characters at least. *)
Lemma four_decimals_length (s : string) :
  Fmt.four_decimals s → (6 <= String.length s)%nat.
Proof.
  intros (sg & ip & fp & -> & Hip & _ & Hfp & _).
  rewrite !string_length_app, Hfp.
  destruct ip as [|c ip]; [done|]. simpl. lia.
Qed.

(** What [.4f] gives for a confidence that is not finite. *)
Lemma format_4f_not_finite (x : F64.float) :
  F64.is_finite x = false →
  (Fmt.format_4f x = "nan"%string ∨ Fmt.format_4f x = "inf"%string ∨
   Fmt.format_4f x = "-inf"%string) ∧
  ¬ Fmt.four_decimals (Fmt.format_4f x).
Proof.
  intros Hx.
  assert (H : Fmt.format_4f x = "nan"%string ∨
              Fmt.format_4f x = "inf"%string ∨
              Fmt.format_4f x = "-inf"%string).
  { destruct x as [s|[]| |s m e]; try discriminate; auto. }
  split; [done|]. intros H4%four_decimals_length.
  destruct H as [E|[E|E]]; rewrite E in H4; simpl in H4; lia.
Qed.

(** C3. When every step of the pipeline succeeds (the path argument is
    present, the file is read and decoded, the model is loaded and
    answers, and the answer has a class name), the script prints exactly
    one line [<label>|<confidence>] with the label and the confidence it
    computed, and the process exits with status 0.  A finite confidence
    is printed as its value rounded to four decimal places, with exactly
    four decimals; a NaN or an infinite one is printed as [nan], [inf] or
    [-inf], without decimals. *)
Theorem C3_success_line (L : Libs) (argv : list string)
    (env : gmap string string) (preds : Np.array2) (label : string)
    (confidence : F64.float) :
  model_returns L argv preds →
  postprocess preds = inr (label, confidence) →
  out_stdout (run L argv env)
    = [label +:+ "|" +:+ Fmt.format_4f confidence] ∧
  exit_status (run L argv env) = 0 ∧
  traceback (run L argv env) = None ∧
  label ∈ class_names ∧
  (F64.is_finite confidence = true →
     ∃ s n, Fmt.round4 confidence = Some (s, n) ∧
            Fmt.format_4f confidence = Fmt.sign_str s +:+ Fmt.fixed4 n ∧
            Fmt.four_decimals (Fmt.format_4f confidence)) ∧
  (F64.is_finite confidence = false →
     (Fmt.format_4f confidence = "nan"%string ∨
      Fmt.format_4f confidence = "inf"%string ∨
      Fmt.format_4f confidence = "-inf"%string) ∧
     ¬ Fmt.four_decimals (Fmt.format_4f confidence)).
Proof.
  intros Hret Hpost.
  rewrite (run_model_returns _ _ _ env Hret), Hpost.
  split_and!; try reflexivity.
  - by eapply postprocess_label.
  - intros Hfin.
    destruct confidence as [s|s| |s m e]; try discriminate.
    + exists s, 0. split_and!; try done. by apply format_4f_finite.
    + exists s, (Fmt.scaled4 m e). split_and!; try done.
      by apply format_4f_finite.
  - apply format_4f_not_finite.
Qed.

Lemma C3_witness :
  out_stdout (run Stub.good Stub.argv ∅) = ["Marigold|0.9000"] ∧
  exit_status (run Stub.good Stub.argv ∅) = 0 ∧
  Fmt.four_decimals "0.9000".
Proof.
  destruct (C3_success_line Stub.good Stub.argv ∅ Stub.marigold
              "Marigold" (F64.lit32 9 10))
    as (Hout & Hs & _ & _ & Hfin & _); [stub_returns|by vm_compute|].
  destruct (Hfin eq_refl) as (s & n & _ & _ & H4).
  split_and!; [exact Hout|exact Hs|exact H4].
Defined.

(** C3, counterexample.  A successful run need not print four decimals:
    on an answer that is not a number the run succeeds with status 0, and
    what follows the bar has no decimals. *)
Lemma C3_counterexample :
  model_returns Stub.nan_libs Stub.argv
    (Np.array [[S754_nan; F64.lit32 8 10]]) ∧
  exit_status (run Stub.nan_libs Stub.argv ∅) = 0 ∧
  out_stdout (run Stub.nan_libs Stub.argv ∅) = ["Marigold|nan"] ∧
  ¬ ∃ label number,
      label ∈ class_names ∧
      out_stdout (run Stub.nan_libs Stub.argv ∅)
        = [label +:+ "|" +:+ number] ∧
      Fmt.four_decimals number.
Proof.
  assert (Hout : out_stdout (run Stub.nan_libs Stub.argv ∅)
                 = ["Marigold|nan"]) by (by vm_compute).
  split_and!; [stub_returns|by vm_compute|exact Hout|].
  rewrite Hout. intros (label & number & Hl & Heq & H4).
  apply four_decimals_length in H4.
  unfold class_names in Hl. rewrite !elem_of_cons in Hl.
  destruct Hl as [->|[->|Hl]]; [| |by apply not_elem_of_nil in Hl].
  - vm_compute in Heq. simplify_eq. simpl in H4. lia.
  - vm_compute in Heq. simplify_eq.
Qed.

(** C4. For image bytes that Pillow decodes, preprocessing (convert to
    RGB, resize to 150x150, divide each channel by 255.0, add the batch
    axis) succeeds with a tensor of shape (1, 150, 150, 3) whose entries
    all lie in [0,1]. *)
Theorem C4_preprocess_shape_range (L : Libs) (img_bytes : bytes)
    (im : Image L) (rgb : rgb_image) :
  resize_contract L →
  Image_open L img_bytes = inr im →
  convert_RGB L im = inr rgb →
  ∃ t,
    load_and_preprocess_image_from_bytes L img_bytes default_target_size
      = inr t ∧
    Np.has_shape4 1 150 150 3 t ∧
    Np.all_in_unit t.
Proof.
  intros Hresize Hopen Hconv.
  destruct (Hresize 150%nat 150%nat rgb) as (resized & Hres & Hh & Hw);
    [lia|lia|].
  eexists. split_and!.
  - unfold load_and_preprocess_image_from_bytes, mbind, res_bind.
    rewrite Hopen, Hconv. unfold default_target_size. rewrite Hres.
    reflexivity.
  - by apply preprocess_shape.
  - apply Forall_cons. split; [|constructor].
    apply true_divide_255_in_unit.
Qed.

Lemma C4_witness :
  ∃ t,
    load_and_preprocess_image_from_bytes Stub.good
      [Byte.x00; Byte.x80; Byte.xff] default_target_size = inr t ∧
    Np.has_shape4 1 150 150 3 t ∧ Np.all_in_unit t.
Proof.
  apply (C4_preprocess_shape_range Stub.good [Byte.x00; Byte.x80; Byte.xff]
           [Byte.x00; Byte.x80; Byte.xff]
           [[(Byte.x00, Byte.x00, Byte.x00); (Byte.x80, Byte.x80, Byte.x80);
             (Byte.xff, Byte.xff, Byte.xff)]]).
  - stub_resize.
  - reflexivity.
  - reflexivity.
Defined.

(** C5. A failure at any stage after the argument check (the file cannot be
    read, the base64 text does not decode, the model cannot be loaded, the
    image cannot be decoded, inference or the handling of its answer
    raises) is not caught: nothing is printed, neither [Error|0.0] nor a
    result line, and the process ends on the uncaught exception with
    status 1. *)
Theorem C5_failures_uncaught (L : Libs) (argv : list string) (path : string)
    (e : pyerr) (env : gmap string string) :
  argv !! 1%nat = Some path →
  pipeline_fails L path e →
  out_stdout (run L argv env) = [] ∧
  traceback (run L argv env) = Some e ∧
  exit_status (run L argv env) = 1.
Proof.
  intros Hp Hf. by rewrite (run_pipeline_fails L argv path e env Hp Hf).
Qed.

Lemma C5_witness :
  out_stdout (run Stub.good ["ml/predict.py"; "missing.b64"] ∅) = [] ∧
  traceback (run Stub.good ["ml/predict.py"; "missing.b64"] ∅)
    = Some "FileNotFoundError" ∧
  exit_status (run Stub.good ["ml/predict.py"; "missing.b64"] ∅) = 1.
Proof.
  apply (C5_failures_uncaught Stub.good ["ml/predict.py"; "missing.b64"]
           "missing.b64" "FileNotFoundError" ∅).
  - reflexivity.
  - apply fail_open. reflexivity.
Defined.

(** C6. With the two-class probability model of the spec, every run that
    ends with exit status 0 (the runs that print a result line) prints a
    confidence in [0,1]: the value is a binary64 number with
    [0 <= confidence <= 1], and the decimal printed for it, [n / 10^4]
    with an optional sign, has [0 <= n <= 10000], the sign being present
    only on a zero. *)
Theorem C6_confidence_in_unit (L : Libs) (argv : list string)
    (env : gmap string string) :
  probability_model L →
  exit_status (run L argv env) = 0 →
  ∃ label confidence s n,
    out_stdout (run L argv env)
      = [label +:+ "|" +:+ Fmt.format_4f confidence] ∧
    F64.in_unit confidence = true ∧
    Fmt.format_4f confidence = Fmt.sign_str s +:+ Fmt.fixed4 n ∧
    0 <= n <= 10000 ∧ (s = true → n = 0).
Proof.
  intros Hmodel Hs.
  destruct (run_success_inv _ _ _ Hs)
    as (preds & label & c & Hret & Hpost & Hrun).
  destruct (model_returns_predict _ _ _ Hret) as (model & t & Hm & Hp).
  destruct (Hmodel _ _ _ _ Hm Hp) as (row & -> & Hrow).
  destruct (postprocess_probability_row row Hrow)
    as (i & label' & c' & _ & _ & _ & _ & _ & Hpost' & Hv & Hu).
  rewrite Hpost in Hpost'. injection Hpost' as <- <-.
  destruct (round4_in_unit c Hv Hu) as (s & n & Hr & Hn & Hsign).
  exists label, c, s, n. rewrite Hrun.
  split_and!; try done; try lia.
  unfold Fmt.format_4f. by rewrite Hr.
Qed.

Lemma C6_witness :
  ∃ label confidence s n,
    out_stdout (run Stub.good Stub.argv ∅)
      = [label +:+ "|" +:+ Fmt.format_4f confidence] ∧
    F64.in_unit confidence = true ∧
    Fmt.format_4f confidence = Fmt.sign_str s +:+ Fmt.fixed4 n ∧
    0 <= n <= 10000 ∧ (s = true → n = 0).
Proof.
  apply (C6_confidence_in_unit Stub.good Stub.argv ∅);
    [stub_probability|by vm_compute].
Defined.

(** C7. With a path argument whose file can be read, the script strips
    the white space around the whole content ([strip] removes a run of
    white space at each end and nothing else), hands the stripped text to
    the base64 decoder and does not check the decoding: an error raised
    by the decoder ends the run uncaught, and decoded bytes go to the
    image stage as they are, so that the rest of the run is the
    preprocessing of these bytes, inference and the report. *)
Theorem C7_read_strip_decode (L : Libs) (argv : list string) (path : string)
    (content : text) (env : gmap string string) :
  argv !! 1%nat = Some path →
  open_read L path = inr content →
  (∃ l r, content = l ++ strip content ++ r ∧
     Forall (λ c, py_isspace c = true) l ∧
     Forall (λ c, py_isspace c = true) r ∧
     (∀ c t, strip content = c :: t → py_isspace c = false) ∧
     (∀ t c, strip content = t ++ [c] → py_isspace c = false)) ∧
  (∀ e, b64decode L (strip content) = inl e →
     run L argv env = crashed L e env) ∧
  (∀ img_bytes, b64decode L (strip content) = inr img_bytes →
     match load_model L model_path with
     | inl e => run L argv env = crashed L e env
     | inr model =>
         match load_and_preprocess_image_from_bytes L img_bytes
                 default_target_size ≫= model with
         | inl e => run L argv env = crashed L e env
         | inr preds =>
             match postprocess preds with
             | inl e => run L argv env = crashed L e env
             | inr (label, confidence) =>
                 run L argv env
                   = printed L (label +:+ "|" +:+ Fmt.format_4f confidence)
                       env
             end
         end
     end).
Proof.
  intros Hp Hr. split_and!.
  - apply strip_spec.
  - intros e Hb. eapply run_pipeline_fails; [done|].
    by eapply fail_b64decode.
  - intros img_bytes Hb.
    destruct (load_model L model_path) as [e|model] eqn:Hm.
    { eapply run_pipeline_fails; [done|]. by eapply fail_load_model. }
    destruct (load_and_preprocess_image_from_bytes L img_bytes
                default_target_size) as [e|t] eqn:Ht; simpl.
    { eapply run_pipeline_fails; [done|]. by eapply fail_image. }
    destruct (model t) as [e|preds] eqn:Hpred.
    { eapply run_pipeline_fails; [done|]. by eapply fail_predict. }
    assert (Hret : model_returns L argv preds).
    { exists path, content, img_bytes, model. split_and!; try done.
      by rewrite Ht. }
    rewrite (run_model_returns _ _ _ env Hret).
    by destruct (postprocess preds) as [e|[label c]].
Qed.

Lemma C7_witness :
  strip (text_of_string "  AAAA
") = text_of_string "AAAA" ∧
  run Stub.good Stub.argv ∅ = printed Stub.good "Marigold|0.9000" ∅.
Proof.
  destruct (C7_read_strip_decode Stub.good Stub.argv "img.b64"
              (text_of_string "  AAAA
") ∅) as (_ & _ & H); [reflexivity|reflexivity|].
  split; [reflexivity|].
  exact (H [Byte.x00; Byte.x00; Byte.x00] eq_refl).
Defined.




(** C9. Two invocations with the same first argument behave alike, whatever
    else is on the command line: arguments after the path (and the script
    name before it) are never looked at, so a run with extra arguments is
    the run with the path alone. *)
Theorem C9_extra_arguments_ignored (L : Libs) (argv1 argv2 : list string)
    (path : string) (env : gmap string string) :
  argv1 !! 1%nat = Some path →
  argv2 !! 1%nat = Some path →
  run L argv1 env = run L argv2 env.
Proof.
  intros H1 H2.
  destruct (run_cases L argv1 path H1)
    as [(e & Hf & Hrun)|(preds & label & c & Hret & Hpost & Hrun)].
  - rewrite Hrun. symmetry. by eapply run_pipeline_fails.
  - rewrite Hrun.
    assert (Hret2 : model_returns L argv2 preds).
    { eapply model_returns_argv; [|exact Hret]. by rewrite H1, H2. }
    rewrite (run_model_returns _ _ _ env Hret2). by rewrite Hpost.
Qed.

Lemma C9_witness :
  run Stub.good ["ml/predict.py"; "img.b64"; "--top"; "3"] ∅
    = run Stub.good ["ml/predict.py"; "img.b64"] ∅.
Proof.
  apply (C9_extra_arguments_ignored Stub.good
           ["ml/predict.py"; "img.b64"; "--top"; "3"]
           ["ml/predict.py"; "img.b64"] "img.b64" ∅); reflexivity.
Defined.

(** C10. For a prediction array of exactly one (non-empty) row, the index
    the script selects, [np.argmax(preds, axis=1)[0]], and the confidence
    it reports, [np.max(preds)], agree as numbers: the confidence is an
    entry of the row and the same number as the entry at the selected
    index, that is the same datum or, when the largest entries of the row
    are zeros of both signs, a zero that may differ from it in sign; so
    label and confidence are those of one class.  The index is within
    the row; for a row of two entries it is 0 or 1, the lookup in
    [class_names] succeeds, and the script prints that label with that
    confidence. *)
Theorem C10_label_confidence_same_class (row : list F64.float) :
  row ≠ [] →
  ∃ i entry confidence,
    (Np.argmax_axis1 (Np.array [row]) ≫= λ indices, getitem indices 0)
      = inr i ∧
    Np.amax (Np.array [row]) = inr confidence ∧
    row !! i = Some entry ∧
    F64.same_number entry confidence ∧
    confidence ∈ row ∧
    (i < length row)%nat ∧
    (length row = 2%nat →
       (i = 0%nat ∨ i = 1%nat) ∧
       ∃ label,
         class_names !! i = Some label ∧
         ∀ L argv env,
           model_returns L argv (Np.array [row]) →
           run L argv env
             = printed L (label +:+ "|" +:+ Fmt.format_4f confidence) env).
Proof.
  intros Hne.
  destruct (argmax_reads_max row Hne)
    as (i & entry & c & Hi & Hc & Hic & Hsame & Hin & Hlt).
  exists i, entry, c. split_and!; try done.
  - unfold Np.argmax_axis1. destruct row as [|x ip]; [done|].
    cbn [Np.array Np.ncols Np.rows length Nat.eqb Np.argmax_rows].
    unfold mbind, res_bind, mret, res_ret. by rewrite Hi.
  - intros Hlen. rewrite Hlen in Hlt.
    assert (Hl : ∃ label, class_names !! i = Some label).
    { destruct i as [|[|i]]; [by eexists|by eexists|lia]. }
    destruct Hl as [label Hl]. split; [lia|].
    exists label. split; [done|].
    intros L argv env Hret.
    rewrite (run_model_returns _ _ _ env Hret).
    by rewrite (postprocess_one_row row i label c Hi Hl Hc).
Qed.

Lemma C10_witness :
  ∃ i entry confidence,
    (Np.argmax_axis1 (Np.array [[F64.lit32 2 10; F64.lit32 8 10]])
       ≫= λ indices, getitem indices 0) = inr i ∧
    Np.amax (Np.array [[F64.lit32 2 10; F64.lit32 8 10]])
      = inr confidence ∧
    [F64.lit32 2 10; F64.lit32 8 10] !! i = Some entry ∧
    F64.same_number entry confidence ∧
    (i < 2)%nat.
Proof.
  destruct (C10_label_confidence_same_class
              [F64.lit32 2 10; F64.lit32 8 10])
    as (i & entry & c & H1 & H2 & H3 & H4 & _ & H5 & _); [discriminate|].
  exists i, entry, c.
  split; [exact H1|]. split; [exact H2|]. split; [exact H3|].
  split; [exact H4|exact H5].
Defined.

(** C10, counterexample.  The confidence is not always the very entry at
    the index: on zeros of different sign the index is that of the first
    zero, the confidence is the second one, and the two are printed
    differently. *)
Lemma C10_counterexample :
  (Np.argmax_axis1 (Np.array [[S754_zero true; S754_zero false]])
     ≫= λ indices, getitem indices 0) = inr 0%nat ∧
  Np.amax (Np.array [[S754_zero true; S754_zero false]])
    = inr (S754_zero false) ∧
  Fmt.format_4f (S754_zero true) = "-0.0000"%string ∧
  Fmt.format_4f (S754_zero false) = "0.0000"%string ∧
  ¬ ∃ i confidence,
      (Np.argmax_axis1 (Np.array [[S754_zero true; S754_zero false]])
         ≫= λ indices, getitem indices 0) = inr i ∧
      Np.amax (Np.array [[S754_zero true; S754_zero false]])
        = inr confidence ∧
      [S754_zero true; S754_zero false] !! i = Some confidence.
Proof.
  split_and!; try (by vm_compute).
  intros (i & c & Hi & Hc & Hic).
  vm_compute in Hi. vm_compute in Hc. simplify_eq.
Qed.

(** In the other order the confidence is the negative zero. *)
Example signed_zeros_answer :
  Np.argmax [S754_zero false; S754_zero true] = inr 0%nat ∧
  Np.amax (Np.array [[S754_zero false; S754_zero true]])
    = inr (S754_zero true).
Proof. by vm_compute. Qed.

(* ===================================================================== *)
(** * Answers outside the probability model *)
(* ===================================================================== *)

(** The script itself does not check the model's answer.  A NaN is the
    arg-max and the maximum at once and is printed as [nan]; scores above
    one are printed as they are; a third class that wins has no name and
    the lookup raises. *)
Example nan_answer :
  run Stub.nan_libs Stub.argv ∅ = printed Stub.nan_libs "Marigold|nan" ∅.
Proof. vm_compute. reflexivity. Qed.

Example unnormalised_answer :
  out_stdout
    (run (Stub.libs Stub.files true
            (inr (Np.array [[F64.lit32 1 10; F64.lit32 5 2]])))
         Stub.argv ∅)
    = ["Scarlet Sage|2.5000"] ∧
  exit_status
    (run (Stub.libs Stub.files true
            (inr (Np.array [[F64.lit32 1 10; F64.lit32 5 2]])))
         Stub.argv ∅)
    = 0.
Proof. vm_compute. by split. Qed.

Example three_class_answer :
  out_stdout
    (run (Stub.libs Stub.files true
            (inr (Np.array
                    [[F64.lit32 2 10; F64.lit32 3 10; F64.lit32 5 10]])))
         Stub.argv ∅)
    = [] ∧
  traceback
    (run (Stub.libs Stub.files true
            (inr (Np.array
                    [[F64.lit32 2 10; F64.lit32 3 10; F64.lit32 5 10]])))
         Stub.argv ∅)
    = Some "IndexError"%string.
Proof. vm_compute. by split. Qed.

(* ===================================================================== *)
(** * The prediction for any number of classes *)
(* ===================================================================== *)

Lemma argmax_loop_first_max (ip pre : list F64.float) (mp : F64.float)
    (mi : nat) :
  nan_free (pre ++ ip) →
  pre !! mi = Some mp →
  Forall (λ x, F64.leb x mp = true) pre →
  (∀ j x, (j < mi)%nat → pre !! j = Some x → F64.ltb x mp = true) →
  ∃ c,
    (pre ++ ip) !! Np.argmax_loop mp mi (length pre) ip = Some c ∧
    Forall (λ x, F64.leb x c = true) (pre ++ ip) ∧
    ∀ j x, (j < Np.argmax_loop mp mi (length pre) ip)%nat →
           (pre ++ ip) !! j = Some x → F64.ltb x c = true.
Proof.
  revert pre mp mi.
  induction ip as [|x ip IH]; intros pre mp mi Hnan Hmp Hle Hlt.
  { exists mp. rewrite app_nil_r. by split_and!. }
  assert (Hmi : (mi < length pre)%nat) by (by eapply lookup_lt_Some).
  assert (Hx : F64.isnan x = false).
  { unfold nan_free in Hnan. rewrite Forall_app, Forall_cons in Hnan.
    tauto. }
  assert (Hm : F64.isnan mp = false).
  { unfold nan_free in Hnan. rewrite Forall_app in Hnan.
    destruct Hnan as [Hpre _]. rewrite Forall_lookup in Hpre.
    by apply (Hpre mi). }
  replace (pre ++ x :: ip) with ((pre ++ [x]) ++ ip) in *
    by (by rewrite <- app_assoc).
  cbn [Np.argmax_loop].
  replace (S (length pre)) with (length (pre ++ [x]))
    by (rewrite length_app; simpl; lia).
  destruct (F64.leb x mp) eqn:Hxm; cbn [negb].
  - apply IH; try done.
    + by rewrite lookup_app_l.
    + apply Forall_app. split; [done|]. by constructor.
    + intros j y Hj Hy. apply (Hlt j y Hj).
      rewrite lookup_app_l in Hy by lia. done.
  - rewrite Hx.
    pose proof (leb_false_ltb mp x Hm Hx Hxm) as Hmx.
    apply IH; try done.
    + rewrite lookup_app_r by lia. by rewrite Nat.sub_diag.
    + apply Forall_app. split.
      * eapply Forall_impl; [exact Hle|]. intros y Hy. simpl.
        by apply ltb_leb, (leb_ltb_trans y mp x).
      * constructor; [by apply leb_refl|constructor].
    + intros j y Hj Hy. rewrite lookup_app_l in Hy by lia.
      rewrite Forall_lookup in Hle.
      by apply (leb_ltb_trans y mp x); [apply (Hle j)|].
Qed.

(** X1. For a row of any length without NaN, [np.argmax] returns the index
    of the first largest entry: no entry exceeds the one at the index, and
    every entry before it is strictly smaller.  What the script reports
    for that row is the class name at this index, if there is one, with
    the maximum of the row, the same number as that entry, as the
    confidence. *)
Theorem X1_argmax_first_maximum (row : list F64.float) :
  row ≠ [] → nan_free row →
  ∃ i entry confidence,
    Np.argmax row = inr i ∧ row !! i = Some entry ∧
    (∀ x, x ∈ row → F64.leb x entry = true) ∧
    (∀ j x, (j < i)%nat → row !! j = Some x → F64.ltb x entry = true) ∧
    Np.amax (Np.array [row]) = inr confidence ∧
    F64.same_number entry confidence ∧
    postprocess (Np.array [row])
      = (label ← getitem class_names i; mret (label, confidence)).
Proof.
  intros Hne Hnan. destruct row as [|x ip]; [done|].
  assert (Hx : F64.isnan x = false) by (by inversion Hnan).
  destruct (argmax_loop_first_max ip [x] x 0) as (c & Hc & Hall & Hlt);
    try done.
  { constructor; [by apply leb_refl|constructor]. }
  { intros j y Hj. lia. }
  simpl in Hc, Hall, Hlt.
  destruct (argmax_reads_max (x :: ip))
    as (i & entry & conf & Hi & Hamax & Hic & Hsame & _ & _); [done|].
  assert (Hi' : Np.argmax (x :: ip) = inr (Np.argmax_loop x 0 1 ip)).
  { simpl. by rewrite Hx. }
  rewrite Hi' in Hi. injection Hi as <-.
  assert (entry = c) as -> by congruence.
  exists (Np.argmax_loop x 0 1 ip), c, conf. split_and!; try done.
  - intros y Hy. rewrite Forall_forall in Hall. by apply Hall.
  - unfold postprocess, mbind, res_bind, mret, res_ret, Np.argmax_axis1.
    cbn [Np.array Np.ncols Np.rows length Nat.eqb Np.argmax_rows].
    unfold mbind, res_bind, mret, res_ret.
    rewrite Hi', Hamax.
    replace (getitem [Np.argmax_loop x 0 1 ip] 0)
      with (inr (Np.argmax_loop x 0 1 ip) : res nat) by done.
    by destruct (getitem class_names (Np.argmax_loop x 0 1 ip)).
Qed.

Lemma X1_witness :
  ∃ i entry,
    Np.argmax [F64.lit32 1 10; F64.lit32 7 10; F64.lit32 7 10] = inr i ∧
    [F64.lit32 1 10; F64.lit32 7 10; F64.lit32 7 10] !! i = Some entry ∧
    i = 1%nat.
Proof.
  destruct (X1_argmax_first_maximum
              [F64.lit32 1 10; F64.lit32 7 10; F64.lit32 7 10])
    as (i & entry & c & Hi & Hc & _); [discriminate|by repeat constructor|].
  exists i, entry. split; [exact Hi|]. split; [exact Hc|].
  assert (E : Np.argmax [F64.lit32 1 10; F64.lit32 7 10; F64.lit32 7 10]
              = inr 1%nat) by (vm_compute; reflexivity).
  congruence.
Defined.

Lemma argmax_loop_first_nan (pre post : list F64.float) (mp : F64.float)
    (mi i : nat) :
  F64.isnan mp = false → nan_free pre →
  Np.argmax_loop mp mi i (pre ++ S754_nan :: post) = (i + length pre)%nat.
Proof.
  revert mp mi i. induction pre as [|x pre IH]; intros mp mi i Hmp Hpre.
  { cbn [app Np.argmax_loop]. rewrite leb_nan_l by done. simpl. lia. }
  apply Forall_cons in Hpre as [Hx Hpre]. simpl.
  destruct (F64.leb x mp); simpl.
  - rewrite IH by done. lia.
  - rewrite Hx, IH by done. lia.
Qed.

(** X2. A NaN in the row wins: [np.argmax] returns the index of the first
    NaN and [np.max] returns NaN, whatever the other entries are.  When
    that index is 0 or 1 the script prints the class name there with the
    confidence [nan], and exits with status 0. *)
Theorem X2_nan_wins (pre post : list F64.float) :
  nan_free pre →
  Np.argmax (pre ++ S754_nan :: post) = inr (length pre) ∧
  Np.amax (Np.array [pre ++ S754_nan :: post]) = inr S754_nan ∧
  ∀ L argv env label,
    model_returns L argv (Np.array [pre ++ S754_nan :: post]) →
    class_names !! length pre = Some label →
    run L argv env = printed L (label +:+ "|nan") env.
Proof.
  intros Hpre.
  assert (Hi : Np.argmax (pre ++ S754_nan :: post) = inr (length pre)).
  { destruct pre as [|x pre]; [done|].
    apply Forall_cons in Hpre as [Hx Hpre]. simpl. rewrite Hx.
    by rewrite argmax_loop_first_nan. }
  assert (Hc : Np.amax (Np.array [pre ++ S754_nan :: post])
               = inr S754_nan).
  { unfold Np.amax. cbn [Np.array Np.rows concat]. rewrite app_nil_r.
    destruct pre as [|x pre]; cbn [app].
    { by rewrite fold_maximum_nan. }
    apply Forall_cons in Hpre as [Hx Hpre].
    rewrite fold_left_app. cbn [fold_left].
    pose proof (fold_maximum_not_nan pre x Hx Hpre) as Hm.
    rewrite (maximum_not_nan_l _ S754_nan Hm).
    rewrite (ltb_nan_l S754_nan) by done.
    by rewrite fold_maximum_nan. }
  split_and!; try done.
  intros L argv env label Hret Hl.
  rewrite (run_model_returns _ _ _ env Hret).
  by rewrite (postprocess_one_row _ _ label S754_nan Hi Hl Hc).
Qed.

Lemma X2_witness :
  Np.argmax [F64.lit32 9 10; S754_nan] = inr 1%nat ∧
  Np.amax (Np.array [[F64.lit32 9 10; S754_nan]]) = inr S754_nan.
Proof.
  destruct (X2_nan_wins [F64.lit32 9 10] []) as (Hi & Hc & _);
    [by repeat constructor|].
  by split.
Defined.

(** X3. A winning class without a name: when the index selected for the
    first row is 2 or more, the lookup in [class_names] raises
    [IndexError]; nothing is printed and the run ends on the traceback
    with status 1. *)
Theorem X3_unnamed_class_raises (L : Libs) (argv : list string)
    (env : gmap string string) (preds : Np.array2) (i : nat)
    (js : list nat) :
  model_returns L argv preds →
  Np.argmax_axis1 preds = inr (i :: js) →
  (2 <= i)%nat →
  run L argv env = crashed L "IndexError" env.
Proof.
  intros Hret Hi Hge.
  rewrite (run_model_returns _ _ _ env Hret).
  unfold postprocess, mbind, res_bind. rewrite Hi. simpl.
  unfold getitem.
  destruct (class_names !! i) as [label|] eqn:Hl; [|done].
  apply lookup_lt_Some in Hl. simpl in Hl. lia.
Qed.

Lemma X3_witness :
  run (Stub.libs Stub.files true
         (inr (Np.array [[F64.lit32 2 10; F64.lit32 3 10; F64.lit32 5 10]])))
      Stub.argv ∅
    = crashed
        (Stub.libs Stub.files true
           (inr (Np.array
                   [[F64.lit32 2 10; F64.lit32 3 10; F64.lit32 5 10]])))
        "IndexError" ∅.
Proof.
  apply (X3_unnamed_class_raises _ _ _
           (Np.array [[F64.lit32 2 10; F64.lit32 3 10; F64.lit32 5 10]])
           2 []);
    [stub_returns|reflexivity|lia].
Defined.

(** X4. Degenerate answers.  For an array without columns (shape (n, 0),
    the array without rows or columns included) [np.argmax] raises
    [ValueError]; for an array that has columns but no rows the arg-max
    vector is empty and the index [[0]] into it raises [IndexError].
    Either way nothing is printed and the run ends on the traceback with
    status 1. *)
Theorem X4_empty_answer_raises (L : Libs) (argv : list string)
    (env : gmap string string) (preds : Np.array2) :
  model_returns L argv preds →
  (Np.ncols preds = 0%nat → run L argv env = crashed L "ValueError" env) ∧
  (Np.ncols preds ≠ 0%nat → Np.rows preds = [] →
     run L argv env = crashed L "IndexError" env).
Proof.
  intros Hret. rewrite (run_model_returns _ _ _ env Hret).
  unfold postprocess, mbind, res_bind, Np.argmax_axis1. split.
  - by intros ->.
  - intros Hc Hr. apply Nat.eqb_neq in Hc. by rewrite Hc, Hr.
Qed.

Lemma X4_witness :
  traceback (run (Stub.libs Stub.files true (inr (Np.array [[]])))
               Stub.argv ∅)
    = Some "ValueError"%string ∧
  traceback (run (Stub.libs Stub.files true
                    (inr {| Np.ncols := 2; Np.rows := [] |}))
               Stub.argv ∅)
    = Some "IndexError"%string.
Proof.
  split.
  - destruct (X4_empty_answer_raises
                (Stub.libs Stub.files true (inr (Np.array [[]])))
                Stub.argv ∅ (Np.array [[]])) as [H _]; [stub_returns|].
    by rewrite H.
  - destruct (X4_empty_answer_raises
                (Stub.libs Stub.files true
                   (inr {| Np.ncols := 2; Np.rows := [] |}))
                Stub.argv ∅ {| Np.ncols := 2; Np.rows := [] |}) as [_ H];
      [stub_returns|].
    by rewrite H.
Defined.

(** X5. A model with a single output: the row has one entry, the arg-max is
    0 whatever the entry is (NaN included), so the script always answers
    [Marigold], with that entry as the confidence. *)
Theorem X5_single_output_is_marigold (L : Libs) (argv : list string)
    (env : gmap string string) (p : F64.float) :
  model_returns L argv (Np.array [[p]]) →
  run L argv env = printed L ("Marigold|" +:+ Fmt.format_4f p) env.
Proof.
  intros Hret. rewrite (run_model_returns _ _ _ env Hret).
  assert (Hpost : postprocess (Np.array [[p]]) = inr ("Marigold"%string, p)).
  { apply (postprocess_one_row [p] 0); [|done|done].
    simpl. by destruct (F64.isnan p). }
  by rewrite Hpost.
Qed.

Lemma X5_witness :
  run (Stub.libs Stub.files true (inr (Np.array [[F64.lit32 1 100]])))
      Stub.argv ∅
    = printed
        (Stub.libs Stub.files true (inr (Np.array [[F64.lit32 1 100]])))
        "Marigold|0.0100" ∅.
Proof.
  rewrite (X5_single_output_is_marigold _ _ _ (F64.lit32 1 100));
    [|stub_returns].
  by vm_compute.
Defined.

Lemma argmax_rows_nonempty (rest : list (list F64.float)) :
  Forall (λ row, row ≠ []) rest →
  ∃ js, Np.argmax_rows rest = inr js.
Proof.
  induction rest as [|row rest IH]; intros Hne; [by exists []|].
  apply Forall_cons in Hne as [Hrow Hrest].
  destruct (IH Hrest) as [js Hjs].
  destruct row as [|x ip]; [done|].
  eexists. simpl. unfold mbind, res_bind, mret, res_ret. by rewrite Hjs.
Qed.

(** X6. Several rows.  The label is decided by the first row alone, the
    confidence by the whole array: for an answer without NaN and without
    empty rows, the index is the arg-max of the first row, while the
    confidence is the largest entry anywhere.  It is the first row's
    maximum or an entry of a later row, and not below the entry at the
    index; as soon as a later row holds a larger entry than that one, the
    confidence printed is larger than the score of the class printed. *)
Theorem X6_confidence_over_all_rows (row : list F64.float)
    (rest : list (list F64.float)) :
  row ≠ [] → Forall (λ r, r ≠ []) rest →
  nan_free (concat (row :: rest)) →
  ∃ i entry c0 c,
    Np.argmax row = inr i ∧ row !! i = Some entry ∧
    Np.amax (Np.array [row]) = inr c0 ∧
    F64.same_number entry c0 ∧
    Np.amax (Np.array (row :: rest)) = inr c ∧
    postprocess (Np.array (row :: rest))
      = (label ← getitem class_names i; mret (label, c)) ∧
    F64.leb entry c = true ∧
    (∀ x, x ∈ concat rest → F64.leb x c = true) ∧
    (c = c0 ∨ c ∈ concat rest) ∧
    (∀ x, x ∈ concat rest → F64.ltb entry x = true →
          F64.ltb entry c = true).
Proof.
  intros Hne Hrest Hnan.
  destruct (argmax_reads_max row Hne)
    as (i & entry & c0 & Hi & Hc0 & Hic & Hsame & Hin & _).
  destruct (argmax_rows_nonempty rest Hrest) as [js Hjs].
  simpl in Hnan. unfold nan_free in Hnan.
  apply Forall_app in Hnan as [Hrow Htail].
  assert (Hn0 : F64.isnan c0 = false).
  { rewrite Forall_forall in Hrow. by apply Hrow. }
  destruct row as [|x ip]; [done|].
  assert (Hfold : fold_left Np.maximum ip x = c0).
  { unfold Np.amax in Hc0. cbn [Np.array Np.rows concat] in Hc0.
    rewrite app_nil_r in Hc0. cbn [app] in Hc0. congruence. }
  set (c := fold_left Np.maximum (concat rest) c0).
  assert (Hc : Np.amax (Np.array ((x :: ip) :: rest)) = inr c).
  { unfold Np.amax. cbn [Np.array Np.rows concat app].
    by rewrite fold_left_app, Hfold. }
  destruct (fold_maximum_upper (concat rest) c0 Hn0 Htail)
    as (_ & Hle & Hall).
  exists i, entry, c0, c. split_and!; try done.
  - unfold postprocess, mbind, res_bind, mret, res_ret, Np.argmax_axis1.
    cbn [Np.array Np.ncols Np.rows length Nat.eqb Np.argmax_rows].
    unfold mbind, res_bind, mret, res_ret.
    rewrite Hi, Hjs, Hc.
    replace (getitem (i :: js) 0) with (inr i : res nat) by done.
    by destruct (getitem class_names i).
  - rewrite (leb_rank_l entry c0 c); [done|by apply same_number_rank].
  - intros y Hy. rewrite Forall_forall in Hall. by apply Hall.
  - apply fold_maximum_elem.
  - intros y Hy Hlt. rewrite Forall_forall in Hall.
    eapply ltb_leb_trans; [exact Hlt|]. by apply Hall.
Qed.

Lemma X6_witness :
  ∃ i entry c,
    Np.argmax [F64.lit32 6 10; F64.lit32 4 10] = inr i ∧
    [F64.lit32 6 10; F64.lit32 4 10] !! i = Some entry ∧
    Np.amax (Np.array [[F64.lit32 6 10; F64.lit32 4 10];
                       [F64.lit32 1 10; F64.lit32 9 10]]) = inr c ∧
    F64.ltb entry c = true.
Proof.
  destruct (X6_confidence_over_all_rows
              [F64.lit32 6 10; F64.lit32 4 10]
              [[F64.lit32 1 10; F64.lit32 9 10]])
    as (i & entry & c0 & c & Hi & Hic & _ & _ & Hc & _ & _ & _ & _ & Hlt);
    [discriminate|by repeat constructor|by repeat constructor|].
  exists i, entry, c.
  split; [exact Hi|]. split; [exact Hic|]. split; [exact Hc|].
  apply (Hlt (F64.lit32 9 10)).
  - apply list_elem_of_In. simpl. right. by left.
  - assert (E : Np.argmax [F64.lit32 6 10; F64.lit32 4 10] = inr 0%nat)
      by (vm_compute; reflexivity).
    assert (i = 0%nat) as -> by congruence.
    injection Hic as <-. vm_compute. reflexivity.
Defined.

(* ===================================================================== *)
(** * The outcomes of an invocation, seen by the caller *)
(* ===================================================================== *)

Lemma result_line_not_sentinel (label : string) (c : F64.float) :
  label ∈ class_names → output_line label c ≠ "Error|0.0"%string.
Proof.
  intros Hl. unfold class_names in Hl.
  rewrite !elem_of_cons in Hl.
  destruct Hl as [->|[->|Hl]]; [done|done|].
  by apply not_elem_of_nil in Hl.
Qed.

(** The three outcomes, told apart by the number of arguments and the
    libraries alone. *)
Lemma run_trichotomy (L : Libs) (argv : list string) :
  ((length argv < 2)%nat ∧ ∀ env, run L argv env = usage_error L env) ∨
  ((2 <= length argv)%nat ∧ ∃ e, ∀ env, run L argv env = crashed L e env) ∨
  ((2 <= length argv)%nat ∧
   ∃ label c, label ∈ class_names ∧
     ∀ env, run L argv env = printed L (output_line label c) env).
Proof.
  destruct (length argv <? 2)%nat eqn:Hlen.
  { apply Nat.ltb_lt in Hlen. left. split; [done|].
    intros env. by apply run_no_argument. }
  right. destruct (length_lookup_1 _ Hlen) as [path Hp].
  apply Nat.ltb_ge in Hlen.
  destruct (run_cases L argv path Hp)
    as [(e & _ & He)|(preds & label & c & _ & Hpost & Hrun)].
  - left. split; [done|]. by exists e.
  - right. split; [done|]. exists label, c. split; [|done].
    by eapply postprocess_label.
Qed.

(** X7. What the exit status tells the caller.  The status is 0 or 1, and
    standard output holds at most one line.  The status is 0 exactly when
    that line is a result, [<label>|<confidence>] with one of the two
    class names; with status 1 the output is empty or the sentinel. *)
Theorem X7_exit_status_and_output (L : Libs) (argv : list string)
    (env : gmap string string) :
  (exit_status (run L argv env) = 0 ∨ exit_status (run L argv env) = 1) ∧
  (length (out_stdout (run L argv env)) <= 1)%nat ∧
  (exit_status (run L argv env) = 0 ↔
     ∃ label c, label ∈ class_names ∧
       out_stdout (run L argv env)
         = [label +:+ "|" +:+ Fmt.format_4f c]) ∧
  (exit_status (run L argv env) = 1 →
     out_stdout (run L argv env) = [] ∨
     out_stdout (run L argv env) = ["Error|0.0"]).
Proof.
  destruct (run_trichotomy L argv)
    as [[_ H]|[[_ [e H]]|[_ (label & c & Hl & H)]]]; rewrite (H env); simpl.
  - split_and!; [by right|lia| |by right].
    split; [done|]. intros (label & c & Hl & Hout).
    injection Hout as Hout. symmetry in Hout.
    by apply result_line_not_sentinel in Hout.
  - split_and!; [by right|lia| |by left].
    split; [done|]. by intros (label & c & _ & Hout).
  - split_and!; [by left|lia| |done].
    split; [|done]. intros _. by exists label, c.
Qed.

(** X8. What is printed when.  The sentinel [Error|0.0] is printed exactly
    when the path argument is missing; nothing at all is printed exactly
    when the run ends on an uncaught exception, and then the status
    is 1. *)
Theorem X8_sentinel_and_silence (L : Libs) (argv : list string)
    (env : gmap string string) :
  (out_stdout (run L argv env) = ["Error|0.0"] ↔ (length argv < 2)%nat) ∧
  (out_stdout (run L argv env) = [] ↔ is_Some (traceback (run L argv env))) ∧
  (is_Some (traceback (run L argv env)) → exit_status (run L argv env) = 1).
Proof.
  destruct (run_trichotomy L argv)
    as [[Hlen H]|[[Hlen [e H]]|[Hlen (label & c & Hl & H)]]];
    rewrite (H env); simpl.
  - split_and!; [done| |done].
    split; [done|]. by intros [? ?].
  - split_and!; [|done|done].
    split; [done|lia].
  - split_and!.
    + split; [|lia]. intros Hout. injection Hout as Hout.
      by apply result_line_not_sentinel in Hout.
    + split; [done|]. by intros [? ?].
    + by intros [? ?].
Qed.

(* ===================================================================== *)
(** * Reading the result line back *)
(* ===================================================================== *)

Lemma contains_char_app (c : ascii) (s t : string) :
  contains_char c (s +:+ t) = contains_char c s || contains_char c t.
Proof.
  induction s as [|d s IH]; simpl; [done|]. by rewrite IH, orb_assoc.
Qed.

Lemma digits_no_bar (s : string) :
  Fmt.all_digits s = true → contains_char "|" s = false.
Proof.
  unfold Fmt.all_digits. induction s as [|d s IH]; [done|].
  cbn [list_ascii_of_string forallb contains_char].
  intros [Hd Hs]%andb_true_iff. rewrite (IH Hs), orb_false_r.
  destruct (Ascii.eqb_spec "|"%char d) as [<-|Hne]; [|done].
  vm_compute in Hd. discriminate.
Qed.

Lemma format_4f_no_bar (x : F64.float) :
  contains_char "|" (Fmt.format_4f x) = false.
Proof.
  assert (Hfixed : ∀ s n,
            contains_char "|" (Fmt.sign_str s +:+ Fmt.fixed4 n) = false).
  { intros s n. unfold Fmt.fixed4. rewrite !contains_char_app.
    destruct (int_part_digits (n / 10000)) as [_ Hd].
    rewrite (digits_no_bar _ Hd), (digits_no_bar _ (all_digits_frac4 _)).
    by destruct s. }
  destruct x as [s|s| |s m e]; unfold Fmt.format_4f; simpl Fmt.round4;
    cbv iota beta; try apply Hfixed.
  - by destruct s.
  - done.
Qed.

(** A text with a single bar splits at it in one way only. *)
Lemma split_at_bar_unique (l1 l2 a b : string) :
  contains_char "|" l1 = false → contains_char "|" l2 = false →
  l1 +:+ "|" +:+ l2 = a +:+ "|" +:+ b → a = l1 ∧ b = l2.
Proof.
  intros H1 H2. revert a.
  induction l1 as [|c l1 IH]; intros a Heq.
  - destruct a as [|d a].
    + change (String "|" l2 = String "|" b) in Heq.
      injection Heq as Heq. by subst.
    + change (String "|" l2 = String d (a +:+ "|" +:+ b)) in Heq.
      injection Heq as Hd Heq. subst.
      rewrite contains_char_app in H2.
      change (contains_char "|" ("|" +:+ b)) with true in H2.
      by rewrite orb_true_r in H2.
  - change (Ascii.eqb "|" c || contains_char "|" l1 = false) in H1.
    apply orb_false_iff in H1 as [Hc H1].
    destruct a as [|d a].
    + change (String c (l1 +:+ "|" +:+ l2) = String "|" b) in Heq.
      injection Heq as Hd Heq. subst. by vm_compute in Hc.
    + change (String c (l1 +:+ "|" +:+ l2) = String d (a +:+ "|" +:+ b))
        in Heq.
      injection Heq as Hd Heq. subst.
      by destruct (IH H1 a Heq) as [-> ->].
Qed.

(** X9. The result line can be read back.  Neither a class name nor a
    formatted confidence (digits, a point, a sign, [nan] or [inf])
    contains the separator, so the line printed for a label and a
    confidence splits at [|] in exactly one way, into that label and that
    confidence. *)
Theorem X9_result_line_splits_uniquely (label : string) (c : F64.float)
    (a b : string) :
  label ∈ class_names →
  label +:+ "|" +:+ Fmt.format_4f c = a +:+ "|" +:+ b →
  a = label ∧ b = Fmt.format_4f c.
Proof.
  intros Hl Heq. apply split_at_bar_unique; [|apply format_4f_no_bar|done].
  unfold class_names in Hl. rewrite !elem_of_cons in Hl.
  destruct Hl as [->|[->|Hl]]; [done|done|].
  by apply not_elem_of_nil in Hl.
Qed.

Lemma X9_witness :
  "Scarlet Sage"%string = "Scarlet Sage"%string ∧
  "0.8000"%string = Fmt.format_4f (F64.lit32 8 10).
Proof.
  apply (X9_result_line_splits_uniquely "Scarlet Sage" (F64.lit32 8 10)
           "Scarlet Sage" "0.8000").
  - apply list_elem_of_In. simpl. right. by left.
  - by vm_compute.
Defined.

(* ===================================================================== *)
(** * White space around the payload *)
(* ===================================================================== *)

Lemma lstrip_space_app (l s : text) :
  Forall (λ c, py_isspace c = true) l → lstrip (l ++ s) = lstrip s.
Proof.
  induction 1 as [|c l Hc _ IH]; [done|]. simpl. by rewrite Hc.
Qed.

Lemma lstrip_all_space (s : text) :
  Forall (λ c, py_isspace c = true) s ↔ lstrip s = [].
Proof.
  induction s as [|c s IH]; simpl; [done|].
  destruct (py_isspace c) eqn:Hc.
  - rewrite <- IH. split; [by intros [_ ?]%Forall_cons|by constructor].
  - split; [|done]. intros [Hc' _]%Forall_cons. congruence.
Qed.

Lemma lstrip_app_keep (s r : text) :
  lstrip s ≠ [] → lstrip (s ++ r) = lstrip s ++ r.
Proof.
  induction s as [|c s IH]; simpl; [done|].
  destruct (py_isspace c); [exact IH|done].
Qed.

Lemma rstrip_app_space (s r : text) :
  Forall (λ c, py_isspace c = true) r → rstrip (s ++ r) = rstrip s.
Proof.
  intros Hr. unfold rstrip. rewrite rev_app_distr.
  by rewrite lstrip_space_app by (by apply List.Forall_rev).
Qed.

Lemma strip_surrounding (l s r : text) :
  Forall (λ c, py_isspace c = true) l →
  Forall (λ c, py_isspace c = true) r →
  strip (l ++ s ++ r) = strip s.
Proof.
  intros Hl Hr. unfold strip. rewrite lstrip_space_app by done.
  destruct (lstrip s) as [|c t] eqn:Hs.
  - apply lstrip_all_space in Hs.
    assert (Hsr : lstrip (s ++ r) = []).
    { apply lstrip_all_space, Forall_app. by split. }
    by rewrite Hsr.
  - rewrite lstrip_app_keep by (by rewrite Hs).
    rewrite Hs. by apply rstrip_app_space.
Qed.

(** The outcome depends on the file only through its stripped content. *)
Lemma run_stripped_content (L : Libs) (argv1 argv2 : list string)
    (p1 p2 : string) (c1 c2 : text) (env : gmap string string) :
  argv1 !! 1%nat = Some p1 → argv2 !! 1%nat = Some p2 →
  open_read L p1 = inr c1 → open_read L p2 = inr c2 →
  strip c1 = strip c2 →
  run L argv1 env = run L argv2 env.
Proof.
  intros Ha1 Ha2 Hr1 Hr2 Hs.
  destruct (run_cases L argv1 p1 Ha1)
    as [(e & Hf & Hrun)|(preds & label & c & Hret & Hpost & Hrun)].
  - rewrite Hrun. symmetry. eapply run_pipeline_fails; [exact Ha2|].
    destruct Hf as [e He|content e Hc Hb|content img_bytes e Hc Hb Hm
                   |content img_bytes model e Hc Hb Hm Hi
                   |content img_bytes model t e Hc Hb Hm Hi Hp
                   |content img_bytes model t preds e Hc Hb Hm Hi Hp Hpost];
      try congruence;
      assert (content = c1) as -> by congruence; rewrite Hs in Hb.
    + by eapply fail_b64decode.
    + by eapply fail_load_model.
    + by eapply fail_image.
    + by eapply fail_predict.
    + by eapply fail_postprocess.
  - rewrite Hrun.
    assert (Hret2 : model_returns L argv2 preds).
    { destruct Hret as (path & content & img_bytes & model
                        & Hp & Hc & Hb & Hm & Hi).
      assert (path = p1) as -> by congruence.
      assert (content = c1) as -> by congruence.
      exists p2, c2, img_bytes, model. rewrite <- Hs. by split_and!. }
    rewrite (run_model_returns _ _ _ env Hret2). by rewrite Hpost.
Qed.

(** X10. White space around the payload does not matter: [strip] of a text
    wrapped in white space is [strip] of the text (so stripping twice
    changes nothing), and two files whose contents differ only by white
    space at the ends (a trailing newline, indentation) give the same
    run. *)
Theorem X10_surrounding_space_ignored (L : Libs) (argv1 argv2 : list string)
    (p1 p2 : string) (content l r : text) (env : gmap string string) :
  Forall (λ c, py_isspace c = true) l →
  Forall (λ c, py_isspace c = true) r →
  argv1 !! 1%nat = Some p1 → argv2 !! 1%nat = Some p2 →
  open_read L p1 = inr content →
  open_read L p2 = inr (l ++ content ++ r) →
  strip (l ++ content ++ r) = strip content ∧
  strip (strip content) = strip content ∧
  run L argv1 env = run L argv2 env.
Proof.
  intros Hl Hr Ha1 Ha2 Hr1 Hr2.
  pose proof (strip_surrounding l content r Hl Hr) as Hs.
  split_and!; [done| |].
  - destruct (strip_spec content) as (l' & r' & Hc & Hl' & Hr' & _).
    rewrite Hc at 2. symmetry. by apply strip_surrounding.
  - by eapply run_stripped_content.
Qed.

Lemma X10_witness :
  run (Stub.libs {[ "a.b64" := text_of_string "AAAA";
                    "b.b64" := 9%N :: text_of_string "AAAA" ++ [13%N; 10%N] ]}
         true (inr Stub.marigold)) ["predict.py"; "a.b64"] ∅
  = run (Stub.libs {[ "a.b64" := text_of_string "AAAA";
                      "b.b64" := 9%N :: text_of_string "AAAA" ++ [13%N; 10%N] ]}
           true (inr Stub.marigold)) ["predict.py"; "b.b64"] ∅.
Proof.
  apply (X10_surrounding_space_ignored _ _ _ "a.b64" "b.b64"
           (text_of_string "AAAA") [9%N] [13%N; 10%N]).
  - by repeat constructor.
  - by repeat constructor.
  - reflexivity.
  - reflexivity.
  - reflexivity.
  - reflexivity.
Defined.

(* ===================================================================== *)
(** * More on preprocessing *)
(* ===================================================================== *)

(** X11. [load_and_preprocess_image_from_bytes] for any target size.  With
    a target [(w, h)] of at least one pixel each way, width first as Pillow
    takes it, the tensor has shape (1, h, w, 3), height first, with
    entries in [0,1].  With an empty target Pillow's [resize] refuses and
    the function raises [ValueError].  Apart from that the function raises
    exactly when [Image.open] or [convert('RGB')] raises, with that
    exception. *)
Theorem X11_preprocess_any_size (L : Libs) (img_bytes : bytes) (w h : nat) :
  resize_contract L → resize_rejects_empty L →
  match load_and_preprocess_image_from_bytes L img_bytes (w, h) with
  | inr t =>
      (0 < w)%nat ∧ (0 < h)%nat ∧
      Np.has_shape4 1 h w 3 t ∧ Np.all_in_unit t ∧
      ∃ im rgb, Image_open L img_bytes = inr im ∧
                convert_RGB L im = inr rgb
  | inl e =>
      Image_open L img_bytes = inl e ∨
      (∃ im, Image_open L img_bytes = inr im ∧ convert_RGB L im = inl e) ∨
      (∃ im rgb, Image_open L img_bytes = inr im ∧
                 convert_RGB L im = inr rgb ∧
                 (w = 0%nat ∨ h = 0%nat) ∧ e = "ValueError"%string)
  end.
Proof.
  intros Hresize Hempty.
  unfold load_and_preprocess_image_from_bytes, mbind, res_bind, mret,
    res_ret.
  destruct (Image_open L img_bytes) as [e|im]; [by left|].
  destruct (convert_RGB L im) as [e|rgb] eqn:Hconv.
  { right. left. by exists im. }
  destruct (decide (w = 0%nat ∨ h = 0%nat)) as [Hz|Hnz].
  { rewrite (Hempty w h rgb Hz). right. right. by exists im, rgb. }
  assert (Hw : (0 < w)%nat) by lia. assert (Hh : (0 < h)%nat) by lia.
  destruct (Hresize w h rgb Hw Hh) as (resized & -> & Hlen & Hrows).
  split_and!; try done.
  - by apply preprocess_shape.
  - apply Forall_cons. split; [|constructor].
    apply true_divide_255_in_unit.
  - by exists im, rgb.
Qed.

Lemma X11_witness :
  match load_and_preprocess_image_from_bytes Stub.good
          [Byte.x10; Byte.xf0] (4%nat, 2%nat) with
  | inr t => (0 < 4)%nat ∧ (0 < 2)%nat ∧ Np.has_shape4 1 2 4 3 t
  | inl _ => False
  end.
Proof.
  pose proof (X11_preprocess_any_size Stub.good [Byte.x10; Byte.xf0] 4 2)
    as H.
  simpl in H. simpl.
  destruct H as (Hw & Hh & Hshape & _).
  - stub_resize.
  - intros w h img [-> | ->]; simpl; [done|]. by destruct w.
  - by split_and!.
Defined.

Lemma byte_in_all_bytes (b : Byte.byte) : In b all_bytes.
Proof.
  assert (H : existsb (Byte.eqb b) all_bytes = true)
    by (destruct b; vm_compute; reflexivity).
  apply existsb_exists in H as (x & Hx & Heq).
  by apply Byte.byte_dec_bl in Heq as ->.
Qed.

Lemma div255_increasing_check :
  let table := map (λ b, (Byte.to_N b, Np.div255 b)) all_bytes in
  forallb (λ p,
    forallb (λ q, implb (fst p <? fst q)%N (F64.ltb (snd p) (snd q)))
      table)
    table = true.
Proof. vm_compute. reflexivity. Qed.

(** X12. The normalisation [x / 255.0] keeps the order of the channel
    values and is exact at both ends: a larger byte gives a strictly
    larger number, so distinct values stay distinct, 0 gives [0.0] and 255
    gives [1.0]. *)
Theorem X12_div255_increasing (a b : Byte.byte) :
  (Byte.to_N a < Byte.to_N b)%N →
  F64.ltb (Np.div255 a) (Np.div255 b) = true ∧
  Np.div255 a ≠ Np.div255 b ∧
  Np.div255 Byte.x00 = F64.zero ∧
  Np.div255 Byte.xff = F64.one.
Proof.
  intros Hlt.
  assert (H : F64.ltb (Np.div255 a) (Np.div255 b) = true).
  { pose proof div255_increasing_check as Hall. cbv zeta in Hall.
    rewrite forallb_forall in Hall.
    specialize (Hall (Byte.to_N a, Np.div255 a)
                  (in_map _ _ _ (byte_in_all_bytes a))).
    rewrite forallb_forall in Hall.
    specialize (Hall (Byte.to_N b, Np.div255 b)
                  (in_map _ _ _ (byte_in_all_bytes b))).
    cbn [fst snd] in Hall.
    apply N.ltb_lt in Hlt. by rewrite Hlt in Hall. }
  split_and!; [done| |by vm_compute|by vm_compute].
  intros Heq. rewrite Heq in H.
  pose proof (ltb_not_leb _ _ H) as Hn.
  destruct (ltb_true_not_nan _ _ H) as [Hnan _].
  by rewrite leb_refl in Hn.
Qed.

Lemma X12_witness :
  F64.ltb (Np.div255 Byte.x7f) (Np.div255 Byte.x80) = true.
Proof.
  apply (X12_div255_increasing Byte.x7f Byte.x80). by vm_compute.
Defined.

(* ===================================================================== *)
(** * More on the [.4f] conversion *)
(* ===================================================================== *)

Lemma round_half_even_error (n d : Z) :
  0 < d → 0 <= n →
  0 <= Fmt.round_half_even n d ∧
  Z.abs (2 * n - 2 * Fmt.round_half_even n d * d) <= d.
Proof.
  intros Hd Hn. unfold Fmt.round_half_even.
  pose proof (Z.div_mod n d ltac:(lia)) as Hdiv.
  pose proof (Z.mod_pos_bound n d Hd) as Hr.
  assert (Hq : 0 <= n / d) by (apply Z.div_pos; lia).
  destruct (Z.compare_spec (2 * (n mod d)) d) as [He|Hl|Hg];
    [destruct (Z.even (n / d))| |]; split; try lia; nia.
Qed.

(** X13. The confidence is printed correctly rounded: for a finite number
    [m * 2^e] of either sign, the decimal printed keeps the sign and its
    magnitude [n / 10^4] is exact when [e >= 0] and otherwise within half
    a unit of the fourth decimal of [m * 2^e]. *)
Theorem X13_format_4f_rounding (s : bool) (m : positive) (e : Z) :
  ∃ n,
    Fmt.round4 (S754_finite s m e) = Some (s, n) ∧
    Fmt.format_4f (S754_finite s m e) = Fmt.sign_str s +:+ Fmt.fixed4 n ∧
    0 <= n ∧
    (0 <= e → n = Zpos m * 2 ^ e * 10000) ∧
    (e < 0 →
       Z.abs (2 * (Zpos m * 10000) - 2 * n * 2 ^ (- e)) <= 2 ^ (- e)).
Proof.
  exists (Fmt.scaled4 m e). split_and!; try done.
  - unfold Fmt.scaled4. destruct e as [|p|p].
    + lia.
    + assert (0 < 2 ^ Zpos p) by (apply Z.pow_pos_nonneg; lia). lia.
    + apply round_half_even_error; [apply Z.pow_pos_nonneg|]; lia.
  - intros He. unfold Fmt.scaled4. destruct e as [|p|p]; first [done|lia].
  - intros He. unfold Fmt.scaled4. destruct e as [|p|p]; try lia.
    change (- Zneg p) with (Zpos p).
    apply round_half_even_error; [apply Z.pow_pos_nonneg|]; lia.
Qed.

Lemma int_part_small (n : Z) :
  0 <= n <= 10000 →
  (n < 10000 ∧ Fmt.int_part (n / 10000) = "0"%string) ∨
  (n = 10000 ∧ Fmt.fixed4 n = "1.0000"%string).
Proof.
  intros Hn. destruct (Z.eq_dec n 10000) as [->|Hne]; [by right|].
  left. split; [lia|]. by rewrite Z.div_small by lia.
Qed.

(** X14. The width of a probability: a valid binary64 number in [0,1] is
    printed as [1.0000], as [0.dddd] with four digits, or as [-0.0000];
    the last for the negative zero only. *)
Theorem X14_probability_width (x : F64.float) :
  F64.valid x = true → F64.in_unit x = true →
  (Fmt.format_4f x = "1.0000"%string ∨
   Fmt.format_4f x = "-0.0000"%string ∨
   ∃ fp, Fmt.format_4f x = "0." +:+ fp ∧
         String.length fp = 4%nat ∧ Fmt.all_digits fp = true) ∧
  (Fmt.format_4f x = "-0.0000"%string ↔ x = S754_zero true).
Proof.
  intros Hv Hu.
  destruct (round4_in_unit x Hv Hu) as (s & n & Hr & Hn & Hs).
  assert (Hshape :
    Fmt.format_4f x = "1.0000"%string ∨
    Fmt.format_4f x = "-0.0000"%string ∨
    ∃ fp, Fmt.format_4f x = "0." +:+ fp ∧
          String.length fp = 4%nat ∧ Fmt.all_digits fp = true).
  { unfold Fmt.format_4f. rewrite Hr. destruct s.
    - right. left. by rewrite (Hs eq_refl).
    - destruct (int_part_small n Hn) as [[Hlt Hip]|[-> Hfix]].
      + right. right. exists (Fmt.frac4 (n mod 10000)).
        unfold Fmt.fixed4. rewrite Hip. split_and!; try done.
        apply all_digits_frac4.
      + by left. }
  split; [exact Hshape|]. split.
  - intros Hneg. destruct x as [[]|[]| |[] m e]; try done.
    unfold Fmt.format_4f in Hneg. rewrite Hr in Hneg.
    injection Hr as <- <-.
    destruct (int_part_small (Fmt.scaled4 m e) Hn) as [[_ Hip]|[_ Hfix]].
    + unfold Fmt.fixed4 in Hneg. rewrite Hip in Hneg. done.
    + rewrite Hfix in Hneg. done.
  - by intros ->.
Qed.

Lemma X14_witness :
  (Fmt.format_4f (F64.lit32 9 10) = "1.0000"%string ∨
   Fmt.format_4f (F64.lit32 9 10) = "-0.0000"%string ∨
   ∃ fp, Fmt.format_4f (F64.lit32 9 10) = "0." +:+ fp ∧
         String.length fp = 4%nat ∧ Fmt.all_digits fp = true) ∧
  (Fmt.format_4f (F64.lit32 9 10) = "-0.0000"%string ↔
     F64.lit32 9 10 = S754_zero true).
Proof.
  apply (X14_probability_width (F64.lit32 9 10)); by vm_compute.
Defined.
